(** * QuizGen: the quiz-room state machine of [src/App.jsx]

    A shallow embedding of the room document, of the Firestore calls the
    application makes on it, and of the handlers of the [App] component
    together with the forms of [CreateQuizPage] and [JoinQuizPage],
    the countdown of [QuizPage], what [ResultsPage] computes from the
    stored answers, and [callGeminiAPI].

    Conventions.
    - A Firestore collection is a finite map from the last path segment
      (the room code) to the document; the fixed path prefix
      [artifacts/appId/public/data/quizRooms] is left out.  [doc()]
      splits a code at its slashes and throws unless the path then has
      an even number of segments: it throws for the empty code and for
      a code such as [A/B].  That call is not part of the handlers
      below, which are those of the source for a code that is a single
      segment, not empty and without a slash.  Every room code is one
      ([isRoomCode]), and so is every code under which a room is
      stored; what is stated of a code with no room under it, or of a
      code just drawn, is stated of a room code.
      [getDoc] and [setDoc] succeed; [updateDoc] fails only when the
      document does not exist.
    - The [players] field is a JavaScript object used as a map: a finite
      map from the participant identifier to the entry.  Identifiers are
      taken without a dot, so that the field path [players.${userId}]
      has exactly two segments.
    - Strings are sequences of bytes, and [toUpperCase] and [trim] act on
      the ASCII letters and the ASCII white space: on a text of ASCII
      characters ([isAscii]) they are the functions of JavaScript, which
      beyond ASCII also map other letters and strip other white space.
      What is stated of a text that a user types is stated of ASCII text.
    - Numbers that the handlers compute with (scores, the timer) are
      integers far below 2^53, modelled in [Z].
    - [Math.random().toString(36)] is given by the radix-36 digits that
      it prints after ["0."]; a value with a short exact expansion, such
      as one half, prints exactly that expansion.
    - A handler is a closure over the values of the render it was created
      in: it takes that render's state [c] as an argument, reads from it,
      and writes through the state setters. *)

From Stdlib Require Import ZArith List Ascii String DecimalString Lia Bool.
From stdpp Require Import base option gmap strings list.

Local Open Scope string_scope.
Local Open Scope Z_scope.
Local Open Scope list_scope.

(** ** Data model *)

(** The values of the [status] field: ['lobby'], ['in-progress'],
    ['finished']. *)
Inductive Status := Lobby | InProgress | Finished.

#[global] Instance Status_eq_dec : EqDecision Status.
Proof. solve_decision. Defined.

(** The values of the [page] state variable. *)
Inductive Page := PHome | PCreate | PJoin | PLobby | PQuiz | PResults.

#[global] Instance Page_eq_dec : EqDecision Page.
Proof. solve_decision. Defined.

(** An item of the generator's response schema. *)
Record Question := {
  question : string;
  options : list string;
  correctAnswer : string;
  explanation : string
}.

(** [{ questionIndex, answer, isCorrect }] *)
Record Answer := {
  questionIndex : nat;
  answer : string;
  isCorrect : bool
}.

(** An entry of [players].  Every field may be missing: [updateDoc] on a
    nested path of an entry that does not exist creates the entry with
    the written field only. *)
Record Player := {
  id : option string;
  name : option string;
  score : option Z;
  answers : option (list Answer)
}.

Record Room := {
  topic : string;
  difficulty : string;
  timer : Z;
  status : Status;
  hostId : string;
  createdAt : Z;
  questions : list Question;
  players : gmap string Player
}.

(** The state variables of the [App] component. *)
Record App := {
  page : Page;
  isLoading : bool;
  error : string;
  userId : string;
  userName : string;
  isHost : bool;
  roomCode : string;
  quizData : option Room;
  currentQuestionIndex : nat;
  selectedAnswer : option string;
  userAnswers : list Answer;
  quizFinished : bool
}.

(** The state of [App] on its first render, once the identity provider
    has delivered [uid]. *)
Definition initialApp (uid : string) : App :=
  {| page := PHome; isLoading := false; error := ""; userId := uid;
     userName := ""; isHost := false; roomCode := ""; quizData := None;
     currentQuestionIndex := 0%nat; selectedAnswer := None;
     userAnswers := []; quizFinished := false |}.

(** One client and the collection it talks to. *)
Record World := {
  client : App;
  store : gmap string Room
}.

(** *** Field updates *)

Definition with_status (s : Status) (r : Room) : Room :=
  {| topic := topic r; difficulty := difficulty r; timer := timer r;
     status := s; hostId := hostId r; createdAt := createdAt r;
     questions := questions r; players := players r |}.

Definition with_players (ps : gmap string Player) (r : Room) : Room :=
  {| topic := topic r; difficulty := difficulty r; timer := timer r;
     status := status r; hostId := hostId r; createdAt := createdAt r;
     questions := questions r; players := ps |}.

Definition noPlayer : Player :=
  {| id := None; name := None; score := None; answers := None |}.

Definition with_answers (l : list Answer) (p : Player) : Player :=
  {| id := id p; name := name p; score := score p; answers := Some l |}.

Definition with_score (z : Z) (p : Player) : Player :=
  {| id := id p; name := name p; score := Some z; answers := answers p |}.

(** One key of the object passed to [updateDoc]. *)
Inductive FieldUpdate :=
| SetStatus (s : Status)                             (* status *)
| SetPlayer (uid : string) (p : Player)              (* players.uid *)
| SetPlayerAnswers (uid : string) (l : list Answer)  (* players.uid.answers *)
| SetPlayerScore (uid : string) (z : Z).             (* players.uid.score *)

Definition nested (uid : string) (f : Player → Player) (r : Room) : Room :=
  with_players (<[uid := f (default noPlayer (players r !! uid))]> (players r)) r.

Definition apply_field (u : FieldUpdate) (r : Room) : Room :=
  match u with
  | SetStatus s => with_status s r
  | SetPlayer uid p => with_players (<[uid := p]> (players r)) r
  | SetPlayerAnswers uid l => nested uid (with_answers l) r
  | SetPlayerScore uid z => nested uid (with_score z) r
  end.

Definition apply_fields (us : list FieldUpdate) (r : Room) : Room :=
  fold_left (fun acc u => apply_field u acc) us r.

(** ** Handlers as computations on a world

    A handler may throw; what it wrote before throwing stays written. *)

Inductive Res (A : Type) :=
| Ok (a : A)
| Throw (message : string).
Arguments Ok {A} a.
Arguments Throw {A} message.

Definition M (A : Type) : Type := World → World * Res A.

#[global] Instance M_ret : MRet M := fun A a w => (w, Ok a).

#[global] Instance M_bind : MBind M := fun A B f m w =>
  match m w with
  | (w', Ok a) => f a w'
  | (w', Throw e) => (w', Throw e)
  end.

Definition throw {A} (message : string) : M A := fun w => (w, Throw message).

(** [try { body } catch (err) { handler }] *)
Definition tryCatch {A} (body : M A) (handler : string → M A) : M A := fun w =>
  match body w with
  | (w', Ok a) => (w', Ok a)
  | (w', Throw e) => handler e w'
  end.

(** [message || fallback] on strings: the empty string is falsy. *)
Definition orElse (message fallback : string) : string :=
  match message with
  | EmptyString => fallback
  | _ => message
  end.

(** *** State setters of [App] *)

Definition updApp (f : App → App) : M unit := fun w =>
  ({| client := f (client w); store := store w |}, Ok tt).

Definition setPage (v : Page) : M unit := updApp (fun c =>
  {| page := v; isLoading := isLoading c; error := error c; userId := userId c;
     userName := userName c; isHost := isHost c; roomCode := roomCode c;
     quizData := quizData c; currentQuestionIndex := currentQuestionIndex c;
     selectedAnswer := selectedAnswer c; userAnswers := userAnswers c;
     quizFinished := quizFinished c |}).

Definition setIsLoading (v : bool) : M unit := updApp (fun c =>
  {| page := page c; isLoading := v; error := error c; userId := userId c;
     userName := userName c; isHost := isHost c; roomCode := roomCode c;
     quizData := quizData c; currentQuestionIndex := currentQuestionIndex c;
     selectedAnswer := selectedAnswer c; userAnswers := userAnswers c;
     quizFinished := quizFinished c |}).

Definition setError (v : string) : M unit := updApp (fun c =>
  {| page := page c; isLoading := isLoading c; error := v; userId := userId c;
     userName := userName c; isHost := isHost c; roomCode := roomCode c;
     quizData := quizData c; currentQuestionIndex := currentQuestionIndex c;
     selectedAnswer := selectedAnswer c; userAnswers := userAnswers c;
     quizFinished := quizFinished c |}).

Definition setUserName (v : string) : M unit := updApp (fun c =>
  {| page := page c; isLoading := isLoading c; error := error c; userId := userId c;
     userName := v; isHost := isHost c; roomCode := roomCode c;
     quizData := quizData c; currentQuestionIndex := currentQuestionIndex c;
     selectedAnswer := selectedAnswer c; userAnswers := userAnswers c;
     quizFinished := quizFinished c |}).

Definition setIsHost (v : bool) : M unit := updApp (fun c =>
  {| page := page c; isLoading := isLoading c; error := error c; userId := userId c;
     userName := userName c; isHost := v; roomCode := roomCode c;
     quizData := quizData c; currentQuestionIndex := currentQuestionIndex c;
     selectedAnswer := selectedAnswer c; userAnswers := userAnswers c;
     quizFinished := quizFinished c |}).

Definition setRoomCode (v : string) : M unit := updApp (fun c =>
  {| page := page c; isLoading := isLoading c; error := error c; userId := userId c;
     userName := userName c; isHost := isHost c; roomCode := v;
     quizData := quizData c; currentQuestionIndex := currentQuestionIndex c;
     selectedAnswer := selectedAnswer c; userAnswers := userAnswers c;
     quizFinished := quizFinished c |}).

Definition setQuizData (v : option Room) : M unit := updApp (fun c =>
  {| page := page c; isLoading := isLoading c; error := error c; userId := userId c;
     userName := userName c; isHost := isHost c; roomCode := roomCode c;
     quizData := v; currentQuestionIndex := currentQuestionIndex c;
     selectedAnswer := selectedAnswer c; userAnswers := userAnswers c;
     quizFinished := quizFinished c |}).

(** [setCurrentQuestionIndex] is called both with a value and with an
    updater [prev => prev + 1]; the updater form covers both. *)
Definition setCurrentQuestionIndex (f : nat → nat) : M unit := updApp (fun c =>
  {| page := page c; isLoading := isLoading c; error := error c; userId := userId c;
     userName := userName c; isHost := isHost c; roomCode := roomCode c;
     quizData := quizData c; currentQuestionIndex := f (currentQuestionIndex c);
     selectedAnswer := selectedAnswer c; userAnswers := userAnswers c;
     quizFinished := quizFinished c |}).

Definition setSelectedAnswer (v : option string) : M unit := updApp (fun c =>
  {| page := page c; isLoading := isLoading c; error := error c; userId := userId c;
     userName := userName c; isHost := isHost c; roomCode := roomCode c;
     quizData := quizData c; currentQuestionIndex := currentQuestionIndex c;
     selectedAnswer := v; userAnswers := userAnswers c;
     quizFinished := quizFinished c |}).

Definition setUserAnswers (v : list Answer) : M unit := updApp (fun c =>
  {| page := page c; isLoading := isLoading c; error := error c; userId := userId c;
     userName := userName c; isHost := isHost c; roomCode := roomCode c;
     quizData := quizData c; currentQuestionIndex := currentQuestionIndex c;
     selectedAnswer := selectedAnswer c; userAnswers := v;
     quizFinished := quizFinished c |}).

Definition setQuizFinished (v : bool) : M unit := updApp (fun c =>
  {| page := page c; isLoading := isLoading c; error := error c; userId := userId c;
     userName := userName c; isHost := isHost c; roomCode := roomCode c;
     quizData := quizData c; currentQuestionIndex := currentQuestionIndex c;
     selectedAnswer := selectedAnswer c; userAnswers := userAnswers c;
     quizFinished := v |}).

(** *** The document store *)

(** [getDoc(ref)]: [None] is a snapshot whose [exists()] is false. *)
Definition getDoc (code : string) : M (option Room) := fun w =>
  (w, Ok (store w !! code)).

(** [setDoc(ref, data)] writes the whole document, over an existing one
    if there is one. *)
Definition setDoc (code : string) (data : Room) : M unit := fun w =>
  ({| client := client w; store := <[code := data]> (store w) |}, Ok tt).

Definition msgNoDocument : string := "No document to update".

(** [updateDoc(ref, fields)] merges the listed fields into an existing
    document and rejects when there is none. *)
Definition updateDoc (code : string) (fields : list FieldUpdate) : M unit := fun w =>
  match store w !! code with
  | Some r =>
      ({| client := client w; store := <[code := apply_fields fields r]> (store w) |},
       Ok tt)
  | None => (w, Throw msgNoDocument)
  end.

(** ** Helper functions *)

(** *** Character classes *)

Fixpoint allChars (P : ascii → bool) (s : string) : bool :=
  match s with
  | EmptyString => true
  | String a s' => P a && allChars P s'
  end.

(** [0-9A-Z] *)
Definition isUpperAlnum (a : ascii) : bool :=
  let n := nat_of_ascii a in
  ((48 <=? n)%nat && (n <=? 57)%nat) || ((65 <=? n)%nat && (n <=? 90)%nat).

(** [a-z] *)
Definition isLower (a : ascii) : bool :=
  let n := nat_of_ascii a in (97 <=? n)%nat && (n <=? 122)%nat.

(** The ASCII characters that [trim] removes: tab, line feed, vertical
    tab, form feed, carriage return and space. *)
Definition isSpace (a : ascii) : bool :=
  let n := nat_of_ascii a in ((9 <=? n)%nat && (n <=? 13)%nat) || (n =? 32)%nat.

(** The characters of ASCII. *)
Definition isAscii (a : ascii) : bool := (nat_of_ascii a <? 128)%nat.

(** [!s.trim()] for an ASCII string [s]: the string is empty once
    trimmed. *)
Definition blank (s : string) : bool := allChars isSpace s.


(** *** Strings and room codes *)

Definition upperAscii (a : ascii) : ascii :=
  let n := nat_of_ascii a in
  if (97 <=? n)%nat && (n <=? 122)%nat then ascii_of_nat (n - 32) else a.

(** [String.prototype.toUpperCase] for an ASCII string. *)
Fixpoint toUpperCase (s : string) : string :=
  match s with
  | EmptyString => EmptyString
  | String a s' => String (upperAscii a) (toUpperCase s')
  end.

(** [s.substring(from, to)] for [from <= to]. *)
Definition jsSubstring (from to : nat) (s : string) : string :=
  String.substring from (to - from) s.

(** The character of a digit in radix 36: [0-9a-z]. *)
Definition digit36 (d : nat) : ascii :=
  if (d <? 10)%nat then ascii_of_nat (48 + d) else ascii_of_nat (87 + d).

Fixpoint digits36 (ds : list nat) : string :=
  match ds with
  | [] => EmptyString
  | d :: ds' => String (digit36 d) (digits36 ds')
  end.

(** The fraction digits in radix 36 of [num / den], for [0 <= num < den]:
    as many as the expansion has, up to [fuel]. *)
Fixpoint fractionDigits (fuel : nat) (num den : Z) : list nat :=
  match fuel with
  | O => []
  | S fuel' =>
      if num =? 0 then []
      else Z.to_nat (36 * num / den) :: fractionDigits fuel' (36 * num mod den) den
  end.

(** [x.toString(36)] for a number [0 <= x < 1] whose radix-36 fraction
    digits are [ds]: ["0"] for zero, ["0."] and the digits otherwise. *)
Definition toString36 (ds : list nat) : string :=
  match ds with
  | [] => "0"
  | _ => ("0." ++ digits36 ds)%string
  end.

(** [generateRoomCode]; [ds] are the fraction digits of the value that
    [Math.random()] returned. *)
Definition generateRoomCode (ds : list nat) : string :=
  toUpperCase (jsSubstring 2 7 (toString36 ds)).

(** ** The question generator *)

(** What the round trip to the generator produced: the request failed,
    the text was not JSON, the JSON was not an array, or an array of
    items of the response schema. *)
Inductive Generated :=
| RequestFailed
| NotJson
| NotArray
| JsonArray (items : list Question).

Definition msgNotQuestionArray : string :=
  "Parsed JSON is not a valid question array.".

Definition msgGenerationFailed : string :=
  "The AI failed to generate questions in the correct format. Please try a different topic or try again.".

(** [generateAIQuestions]: the only test on the parsed response is
    [Array.isArray(parsedJson) && parsedJson.length > 0]. *)
Definition generateAIQuestions (response : Generated) : M (list Question) :=
  tryCatch
    (match response with
     | RequestFailed => throw "API request failed"
     | NotJson => throw "SyntaxError"
     | NotArray => throw msgNotQuestionArray
     | JsonArray parsedJson =>
         if (0 <? length parsedJson)%nat then mret parsedJson
         else throw msgNotQuestionArray
     end)
    (fun _ => throw msgGenerationFailed).

(** ** Core logic functions *)

Module Settings.
(** The argument of [onCreate]: the form's settings and the host's
    name.  [timer] stands for [Number(settings.timer)]. *)
Record t := {
  topic : string;
  difficulty : string;
  numQuestions : string;
  timer : Z;
  hostName : string
}.
End Settings.

(** [{ id: userId, name, score: 0, answers: [] }] *)
Definition freshPlayer (uid nm : string) : Player :=
  {| id := Some uid; name := Some nm; score := Some 0; answers := Some [] |}.

Definition msgCreateFailed : string :=
  "Failed to create quiz room. Please try again.".

(** [handleCreateQuiz].  [ds] are the digits drawn by [generateRoomCode],
    [response] is what the generator produced and [now] is [new Date()].
    The handler is that of the source for a draw of at least one digit:
    for the empty draw, whose code is empty, the source throws in [doc()]
    once the questions are there, and stores nothing. *)
Definition handleCreateQuiz (c : App) (ds : list nat) (response : Generated)
    (now : Z) (settings : Settings.t) : M unit :=
  setError "" ;;
  tryCatch
    (let newRoomCode := generateRoomCode ds in
     generatedQuestions ← generateAIQuestions response;
     let newQuizRoom :=
       {| topic := Settings.topic settings;
          difficulty := Settings.difficulty settings;
          timer := Settings.timer settings;
          status := Lobby;
          hostId := userId c;
          createdAt := now;
          questions := generatedQuestions;
          players := {[ userId c := freshPlayer (userId c) (Settings.hostName settings) ]} |} in
     setDoc newRoomCode newQuizRoom ;;
     setRoomCode newRoomCode ;;
     setUserName (Settings.hostName settings) ;;
     setIsHost true ;;
     setPage PLobby)
    (fun err => setError (orElse err msgCreateFailed) ;; throw err).

Module CreateQuizPage.
(** The component's [settings] state; [timer] stands for the number that
    the input holds. *)
Record settings := {
  topic : string;
  difficulty : string;
  numQuestions : string;
  timer : Z
}.

(** [handleSubmit]: the argument of [onCreate], or [None] when the form
    is turned down with an alert.  [userName] is the state of [App] that
    the name input writes. *)
Definition handleSubmit (userName : string) (s : settings) : option Settings.t :=
  if blank userName || blank (topic s) then None
  else Some {| Settings.topic := topic s; Settings.difficulty := difficulty s;
               Settings.numQuestions := numQuestions s; Settings.timer := timer s;
               Settings.hostName := userName |}.
End CreateQuizPage.

Module JoinQuizPage.
(** The component's [data] state. *)
Record data := { roomCode : string; playerName : string }.

Definition initialData : data := {| roomCode := ""; playerName := "" |}.

(** The two inputs of the form, by their [name] attribute. *)
Inductive field := FRoomCode | FPlayerName.

(** [handleChange]: the room code is upper-cased as it is typed. *)
Definition handleChange (d : data) (target : field) (value : string) : data :=
  match target with
  | FRoomCode => {| roomCode := toUpperCase value; playerName := playerName d |}
  | FPlayerName => {| roomCode := roomCode d; playerName := value |}
  end.

(** The form after a sequence of edits of its inputs. *)
Definition edited (edits : list (field * string)) : data :=
  fold_left (fun d e => handleChange d (fst e) (snd e)) edits initialData.

(** [handleSubmit]: the argument of [onJoin], or [None] when the form is
    turned down with an alert. *)
Definition handleSubmit (d : data) : option data :=
  if blank (roomCode d) || blank (playerName d) then None else Some d.
End JoinQuizPage.

Definition msgAlreadyStarted : string :=
  "This quiz is already in progress or has finished.".

Definition msgRoomNotFound : string :=
  "Room not found. Please check the code.".

Definition msgJoinFailed : string := "Failed to join room.".

(** [handleJoinQuiz].  The handler is that of the source for a code that
    is a single path segment: for the empty code, or a code such as
    [A/B], the source throws in [doc()] and shows the message of that
    error instead. *)
Definition handleJoinQuiz (c : App) (data : JoinQuizPage.data) : M unit :=
  setIsLoading true ;;
  setError "" ;;
  tryCatch
    (roomSnap ← getDoc (JoinQuizPage.roomCode data);
     match roomSnap with
     | Some roomData =>
         if decide (status roomData ≠ Lobby) then throw msgAlreadyStarted
         else
           let newPlayer := freshPlayer (userId c) (JoinQuizPage.playerName data) in
           updateDoc (JoinQuizPage.roomCode data) [SetPlayer (userId c) newPlayer] ;;
           setRoomCode (JoinQuizPage.roomCode data) ;;
           setUserName (JoinQuizPage.playerName data) ;;
           setIsHost false ;;
           setPage PLobby
     | None => throw msgRoomNotFound
     end)
    (fun err => setError (orElse err msgJoinFailed)) ;;
  setIsLoading false.

Definition msgStartFailed : string := "Could not start the quiz.".

(** [handleStartQuiz] *)
Definition handleStartQuiz (c : App) : M unit :=
  setIsLoading true ;;
  tryCatch
    (updateDoc (roomCode c) [SetStatus InProgress])
    (fun _ => setError msgStartFailed) ;;
  setIsLoading false.

Definition msgTypeError : string :=
  "Cannot read properties of undefined (reading 'correctAnswer')".

(** The constants that [handleAnswerSubmit] computes before it writes. *)
Definition scoreIncrement (isCorrect : bool) : Z := if isCorrect then 10 else 0.

Definition newAnswer (c : App) (currentQuestion : Question) (answer : string) : Answer :=
  {| questionIndex := currentQuestionIndex c;
     answer := answer;
     isCorrect := String.eqb answer (correctAnswer currentQuestion) |}.

Definition updatedAnswers (c : App) (currentQuestion : Question) (answer : string)
    : list Answer :=
  userAnswers c ++ [newAnswer c currentQuestion answer].

(** [quizData.players[userId]?.score || 0] *)
Definition currentScore (c : App) (quizData : Room) : Z :=
  default 0 (players quizData !! userId c ≫= score).

(** [handleAnswerSubmit] from its first statement to the first
    [await updateDoc]: the answer record, the local list and the write of
    the player's two fields. *)
Definition submitWrite (c : App) (quizData : Room) (currentQuestion : Question)
    (answer : string) : M unit :=
  setUserAnswers (updatedAnswers c currentQuestion answer) ;;
  updateDoc (roomCode c)
    [SetPlayerAnswers (userId c) (updatedAnswers c currentQuestion answer);
     SetPlayerScore (userId c)
       (currentScore c quizData
        + scoreIncrement (isCorrect (newAnswer c currentQuestion answer)))].

(** [handleAnswerSubmit] after that [await]: the next question, or the end
    of the quiz. *)
Definition submitResume (c : App) (quizData : Room) : M unit :=
  if Z.of_nat (currentQuestionIndex c) <? Z.of_nat (length (questions quizData)) - 1
  then
    setCurrentQuestionIndex S ;;
    setSelectedAnswer None
  else
    updateDoc (roomCode c) [SetStatus Finished] ;;
    setQuizFinished true ;;
    setPage PResults.

(** [handleAnswerSubmit], run without interruption at its [await]s. *)
Definition handleAnswerSubmit (c : App) (answer : string) : M unit :=
  match quizData c with
  | None => mret tt
  | Some quizData =>
      match questions quizData !! currentQuestionIndex c with
      | None => throw msgTypeError
      | Some currentQuestion =>
          submitWrite c quizData currentQuestion answer ;;
          submitResume c quizData
      end
  end.

(** [handleReturnHome] *)
Definition handleReturnHome : M unit :=
  setPage PHome ;;
  setRoomCode "" ;;
  setQuizData None ;;
  setIsHost false ;;
  setError "" ;;
  setQuizFinished false.

Definition msgQuizRoomNotFound : string := "Quiz room not found.".

(** The callback that [App] passes to [onSnapshot]; [docSnap] is the
    document, or [None] when it does not exist. *)
Definition onSnapshot (c : App) (docSnap : option Room) : M unit :=
  match docSnap with
  | Some data =>
      setQuizData (Some data) ;;
      (if decide (status data = InProgress ∧ page c ≠ PQuiz) then
         setQuizFinished false ;;
         setCurrentQuestionIndex (fun _ => 0%nat) ;;
         setUserAnswers [] ;;
         setPage PQuiz
       else mret tt) ;;
      (if decide (status data = Finished ∧ quizFinished c = false) then
         setQuizFinished true ;;
         setPage PResults
       else mret tt)
  | None =>
      setError msgQuizRoomNotFound ;;
      setRoomCode "" ;;
      setPage PHome
  end.

(** A handler called from the render [client w] of the world [w]. *)
Definition run {A} (h : App → M A) (w : World) : World * Res A := h (client w) w.

(** ** A submission interrupted at its [await]

    [handleAnswerSubmit] is an [async] function: it runs up to its first
    [await updateDoc], returns to the event loop with the write under
    way, and is resumed when the write has completed.  The resumed part
    still reads the index and the snapshot of the render that the call
    was made from. *)

Definition beginSubmit (c : App) (answer : string) : M unit :=
  match quizData c with
  | None => mret tt
  | Some quizData =>
      match questions quizData !! currentQuestionIndex c with
      | None => throw msgTypeError
      | Some currentQuestion => submitWrite c quizData currentQuestion answer
      end
  end.

Definition resumeSubmit (c : App) : M unit :=
  match quizData c with
  | None => mret tt
  | Some quizData => submitResume c quizData
  end.

(** ** The countdown of [QuizPage] *)

Module QuizPage.
(** [timeLeft], and whether the interval set by the effect is still
    running. *)
Record state := { timeLeft : Z; interval : bool }.

Definition noAnswer : string := "No Answer".

(** [quizData?.questions[currentQuestionIndex]] *)
Definition currentQuestion (c : App) : option Question :=
  quizData c ≫= fun d => questions d !! currentQuestionIndex c.

(** The state of a component that has just come on screen:
    [useState(quizData?.timer || 30)], and no interval yet. *)
Definition mount (c : App) : state :=
  {| timeLeft := match quizData c with
                 | Some d => if timer d =? 0 then 30 else timer d
                 | None => 30
                 end;
     interval := false |}.

(** The effect, run after a render of [App]: the cleanup of the previous
    run clears the old interval, then a new one is set unless there is
    no question to show. *)
Definition effect (c : App) (s : state) : state :=
  match quizData c, currentQuestion c with
  | Some d, Some _ => {| timeLeft := timer d; interval := true |}
  | _, _ => {| timeLeft := timeLeft s; interval := false |}
  end.

(** One firing of the interval: the new state, and whether
    [handleSubmit('No Answer')] was called. *)
Definition tick (s : state) : state * bool :=
  if interval s then
    if timeLeft s <=? 1 then ({| timeLeft := 0; interval := false |}, true)
    else ({| timeLeft := timeLeft s - 1; interval := true |}, false)
  else (s, false).

(** [handleButtonClick(selectedAnswer)], the click on Submit Answer. *)
Definition handleButtonClick (c : App) : M unit :=
  match selectedAnswer c with
  | Some answer => handleAnswerSubmit c answer
  | None => mret tt
  end.

(** The same click, up to the first [await] of the handler. *)
Definition handleButtonClickBegin (c : App) : M unit :=
  match selectedAnswer c with
  | Some answer => beginSubmit c answer
  | None => mret tt
  end.
End QuizPage.

(** ** Several clients on one collection

    Each handler runs to its end before the next event is taken, and a
    snapshot is delivered as an event of its own, at any later time, with
    the document as it then is.  Every render of [App] makes a new
    [handleAnswerSubmit], which is a dependency of the effect of
    [QuizPage]: the effect is run again after every event that a handler
    of [App] serves. *)

(** A client: the state of [App], and that of [QuizPage] while it is on
    screen. *)
Record Session := { app : App; quizPage : option QuizPage.state }.

Record System := { docs : gmap string Room; sessions : list Session }.

Definition initialSystem (uids : list string) : System :=
  {| docs := ∅;
     sessions := (fun uid => {| app := initialApp uid; quizPage := None |}) <$> uids |}.

Inductive Event :=
| Navigate (p : Page)                        (* a button of HomePage *)
| TypeHostName (value : string)              (* the name input of CreateQuizPage *)
| Create (ds : list nat) (response : Generated) (now : Z)
    (form : CreateQuizPage.settings)         (* the form of CreateQuizPage *)
| Join (edits : list (JoinQuizPage.field * string))  (* the form of JoinQuizPage *)
| Start                                      (* the host's button of LobbyPage *)
| Snapshot                                   (* the listener of the room *)
| Select (o : string)                        (* an option button of QuizPage *)
| Submit                                     (* Submit Answer *)
| Tick                                       (* the interval of QuizPage *)
| ReturnHome.                                (* the button of ResultsPage *)

(** What [renderPage] puts on screen decides which events can happen. *)
Definition enabled (e : Event) (s : Session) : bool :=
  negb (isLoading (app s)) &&
  match e with
  | Navigate p =>
      bool_decide (page (app s) = PHome) && bool_decide (p = PCreate ∨ p = PJoin)
  | TypeHostName _ => bool_decide (page (app s) = PCreate)
  | Create _ _ _ form =>
      bool_decide (page (app s) = PCreate) &&
      bool_decide (is_Some (CreateQuizPage.handleSubmit (userName (app s)) form))
  | Join edits =>
      bool_decide (page (app s) = PJoin) &&
      bool_decide (is_Some (JoinQuizPage.handleSubmit (JoinQuizPage.edited edits)))
  | Start =>
      bool_decide (page (app s) = PLobby) && isHost (app s) &&
      match quizData (app s) with
      | Some d => negb (bool_decide (players d = ∅))
      | None => false
      end
  | Snapshot => negb (bool_decide (roomCode (app s) = ""))
  | Select o =>
      bool_decide (page (app s) = PQuiz) &&
      match QuizPage.currentQuestion (app s) with
      | Some q => bool_decide (o ∈ options q)
      | None => false
      end
  | Submit =>
      bool_decide (page (app s) = PQuiz) &&
      bool_decide (is_Some (QuizPage.currentQuestion (app s))) &&
      bool_decide (is_Some (selectedAnswer (app s)))
  | Tick =>
      match quizPage s with
      | Some q => QuizPage.interval q
      | None => false
      end
  | ReturnHome =>
      bool_decide (page (app s) = PResults) &&
      match quizData (app s) with
      | Some d => bool_decide (is_Some (players d !! userId (app s)))
      | None => false
      end
  end.

(** The session after a render of [App] in state [c]; [q] is the state
    of [QuizPage] before it. *)
Definition rendered (c : App) (q : option QuizPage.state) : Session :=
  {| app := c;
     quizPage :=
       if decide (isLoading c = false ∧ page c = PQuiz)
       then Some (QuizPage.effect c (default (QuizPage.mount c) q))
       else None |}.

(** Session [i] runs the handler [h]. *)
Definition handle (h : App → M unit) (i : nat) (s : Session) (q : option QuizPage.state)
    (sys : System) : System :=
  let w := fst (h (app s) {| client := app s; store := docs sys |}) in
  {| docs := store w; sessions := <[i := rendered (client w) q]> (sessions sys) |}.

Definition step (i : nat) (e : Event) (sys : System) : option System :=
  s ← sessions sys !! i;
  if enabled e s then
    Some
      match e with
      | Navigate p => handle (fun _ => setPage p) i s (quizPage s) sys
      | TypeHostName value => handle (fun _ => setUserName value) i s (quizPage s) sys
      | Create ds response now form =>
          match CreateQuizPage.handleSubmit (userName (app s)) form with
          | Some settings =>
              handle (fun c => handleCreateQuiz c ds response now settings) i s (quizPage s) sys
          | None => sys
          end
      | Join edits =>
          match JoinQuizPage.handleSubmit (JoinQuizPage.edited edits) with
          | Some data => handle (fun c => handleJoinQuiz c data) i s (quizPage s) sys
          | None => sys
          end
      | Start => handle handleStartQuiz i s (quizPage s) sys
      | Snapshot =>
          handle (fun c => onSnapshot c (docs sys !! roomCode c)) i s (quizPage s) sys
      | Select o =>
          if decide (selectedAnswer (app s) = Some o) then sys
          else handle (fun _ => setSelectedAnswer (Some o)) i s (quizPage s) sys
      | Submit => handle QuizPage.handleButtonClick i s (quizPage s) sys
      | Tick =>
          match quizPage s with
          | Some q0 =>
              let (q, fired) := QuizPage.tick q0 in
              if fired
              then handle (fun c => handleAnswerSubmit c QuizPage.noAnswer) i s (Some q) sys
              else {| docs := docs sys;
                      sessions := <[i := {| app := app s; quizPage := Some q |}]> (sessions sys) |}
          | None => sys
          end
      | ReturnHome => handle (fun _ => handleReturnHome) i s (quizPage s) sys
      end
  else None.

(** The systems that clients with the identifiers [uids] can reach. *)
Inductive reachable (uids : list string) : System → Prop :=
| reachable_initial : reachable uids (initialSystem uids)
| reachable_step sys i e sys' :
    reachable uids sys → step i e sys = Some sys' → reachable uids sys'.

(** ** Reading the store *)

(** The question indices of a sequence of answers. *)
Definition indices (l : list Answer) : list nat := questionIndex <$> l.

Definition statusOf (code : string) (st : gmap string Room) : option Status :=
  status <$> st !! code.

(** The score and the answers that the store holds for a player. *)
Definition storedScore (code uid : string) (st : gmap string Room) : option Z :=
  room ← st !! code; p ← players room !! uid; score p.

Definition storedAnswers (code uid : string) (st : gmap string Room) : option (list Answer) :=
  room ← st !! code; p ← players room !! uid; answers p.

(** ** Runs *)

(** The world after the client of [w] has run the handler [h]. *)
Definition after (h : App → M unit) (w : World) : World := fst (run h w).

(** The same collection, seen from the client [c]. *)
Definition seenFrom (c : App) (w : World) : World := {| client := c; store := store w |}.

(** The client of [w] receives the current snapshot of its room. *)
Definition snapshot (w : World) : World :=
  after (fun c => onSnapshot c (store w !! roomCode c)) w.

(** A run of events, each at the session of the given number. *)
Fixpoint steps (es : list (nat * Event)) (sys : System) : option System :=
  match es with
  | [] => Some sys
  | (i, e) :: es' => sys' ← step i e sys; steps es' sys'
  end.

(** ** Operations on the stored room *)

(** [startQuiz] and [submitAnswer], each with the client that calls it. *)
Inductive Op :=
| StartQuiz (c : App)
| SubmitAnswer (c : App) (answer : string).

Definition applyOp (o : Op) (st : gmap string Room) : gmap string Room :=
  match o with
  | StartQuiz c => store (fst (handleStartQuiz c {| client := c; store := st |}))
  | SubmitAnswer c answer =>
      store (fst (handleAnswerSubmit c answer {| client := c; store := st |}))
  end.

Definition applyOps (ops : list Op) (st : gmap string Room) : gmap string Room :=
  fold_left (fun acc o => applyOp o acc) ops st.

(** The order Lobby, InProgress, Finished. *)
Definition rank (s : Status) : nat :=
  match s with
  | Lobby => 0
  | InProgress => 1
  | Finished => 2
  end.

Definition rankOf (code : string) (st : gmap string Room) : nat :=
  from_option rank 0%nat (statusOf code st).

(** No [startQuiz] of the sequence is applied to room [code] once it is
    Finished. *)
Fixpoint startsBeforeFinish (code : string) (ops : list Op) (st : gmap string Room) : Prop :=
  match ops with
  | [] => True
  | o :: ops' =>
      match o with
      | StartQuiz c => roomCode c = code → statusOf code st ≠ Some Finished
      | SubmitAnswer _ _ => True
      end ∧ startsBeforeFinish code ops' (applyOp o st)
  end.

(** ** The well-formedness that the specification asks of a question *)

(** Exactly four options, pairwise distinct, one of which is the correct
    answer.  No function of [src/App.jsx] computes this. *)
Definition specWellFormed (q : Question) : Prop :=
  length (options q) = 4%nat ∧ NoDup (options q) ∧ correctAnswer q ∈ options q.

(** ** Outcomes of handlers *)

(** The world after a room creation that the generator served with a
    non-empty array. *)
Definition created (c : App) (ds : list nat) (items : list Question) (now : Z)
    (settings : Settings.t) (w : World) : World :=
  let code := generateRoomCode ds in
  {| client :=
       {| page := PLobby; isLoading := isLoading (client w); error := "";
          userId := userId (client w); userName := Settings.hostName settings;
          isHost := true; roomCode := code; quizData := quizData (client w);
          currentQuestionIndex := currentQuestionIndex (client w);
          selectedAnswer := selectedAnswer (client w);
          userAnswers := userAnswers (client w);
          quizFinished := quizFinished (client w) |};
     store :=
       <[code :=
           {| topic := Settings.topic settings;
              difficulty := Settings.difficulty settings;
              timer := Settings.timer settings;
              status := Lobby;
              hostId := userId c;
              createdAt := now;
              questions := items;
              players := {[ userId c := freshPlayer (userId c) (Settings.hostName settings) ]} |}]>
         (store w) |}.

(** The world after a room creation that the generator failed. *)
Definition refused (w : World) : World :=
  {| client :=
       {| page := page (client w); isLoading := isLoading (client w);
          error := msgGenerationFailed;
          userId := userId (client w); userName := userName (client w);
          isHost := isHost (client w); roomCode := roomCode (client w);
          quizData := quizData (client w);
          currentQuestionIndex := currentQuestionIndex (client w);
          selectedAnswer := selectedAnswer (client w);
          userAnswers := userAnswers (client w);
          quizFinished := quizFinished (client w) |};
     store := store w |}.

(** [handleAnswerSubmit]'s test for the last question, and what its first
    write makes of the stored room. *)
Definition isLast (c : App) (quizData : Room) : bool :=
  negb (Z.of_nat (currentQuestionIndex c) <? Z.of_nat (length (questions quizData)) - 1).

Definition written (c : App) (quizData : Room) (currentQuestion : Question)
    (answer : string) (room : Room) : Room :=
  apply_fields
    [SetPlayerAnswers (userId c) (updatedAnswers c currentQuestion answer);
     SetPlayerScore (userId c)
       (currentScore c quizData
        + scoreIncrement (isCorrect (newAnswer c currentQuestion answer)))]
    room.

(** ** Invariants of the reachable systems *)

(** The answers that a client holds have distinct question indices, and
    while the quiz is on screen its room is in the store and every answer
    is for a question before the current one. *)
Definition appInv (st : gmap string Room) (c : App) : Prop :=
  NoDup (indices (userAnswers c)) ∧
  (page c = PQuiz →
   is_Some (st !! roomCode c) ∧
   Forall (fun k => (k < currentQuestionIndex c)%nat) (indices (userAnswers c))).

(** An interval runs only while [QuizPage] shows a question. *)
Definition sessionInv (st : gmap string Room) (s : Session) : Prop :=
  appInv st (app s) ∧
  (∀ q, quizPage s = Some q → QuizPage.interval q = true →
        page (app s) = PQuiz ∧ is_Some (QuizPage.currentQuestion (app s))).

(** The answers stored for a player have distinct question indices. *)
Definition storeInv (st : gmap string Room) : Prop :=
  ∀ code room uid p l,
    st !! code = Some room → players room !! uid = Some p → answers p = Some l →
    NoDup (indices l).

Definition systemInv (sys : System) : Prop :=
  storeInv (docs sys) ∧
  ∀ i s, sessions sys !! i = Some s → sessionInv (docs sys) s.

(** No document is ever removed. *)
Definition grows (st st' : gmap string Room) : Prop :=
  ∀ code, is_Some (st !! code) → is_Some (st' !! code).

(** The handler [h], called from a render that satisfies [P], keeps the
    invariants. *)
Definition keeps (P : App → Prop) (h : App → M unit) : Prop :=
  ∀ w, P (client w) → appInv (store w) (client w) → storeInv (store w) →
    grows (store w) (store (after h w)) ∧
    storeInv (store (after h w)) ∧
    appInv (store (after h w)) (client (after h w)).

(** ** Sample values

    A quiz on the oceans: Ada hosts it, Bo joins it. *)

Definition tides : Question :=
  {| question := "What causes tides?";
     options := ["The Moon"; "The wind"; "Earthquakes"; "Ships"];
     correctAnswer := "The Moon";
     explanation := "The pull of the Moon raises the sea." |}.

Definition deepest : Question :=
  {| question := "Which ocean is the deepest?";
     options := ["Atlantic"; "Pacific"; "Indian"; "Arctic"];
     correctAnswer := "Pacific";
     explanation := "The Mariana Trench lies in the Pacific." |}.

(** Four distinct options, none of which is the correct answer. *)
Definition saltiest : Question :=
  {| question := "Which sea is the saltiest?";
     options := ["Baltic"; "Black"; "North"; "Caspian"];
     correctAnswer := "Dead Sea";
     explanation := "" |}.

(** The form that Ada fills in, and the settings that it submits. *)
Definition oceansForm : CreateQuizPage.settings :=
  {| CreateQuizPage.topic := "Oceans"; CreateQuizPage.difficulty := "Easy";
     CreateQuizPage.numQuestions := "3"; CreateQuizPage.timer := 30 |}.

Definition oceans : Settings.t :=
  {| Settings.topic := "Oceans"; Settings.difficulty := "Easy";
     Settings.numQuestions := "3"; Settings.timer := 30;
     Settings.hostName := "Ada" |}.

(** What Bo types into the join form, and the data that it submits. *)
Definition boTypes : list (JoinQuizPage.field * string) :=
  [(JoinQuizPage.FPlayerName, "Bo"); (JoinQuizPage.FRoomCode, "ab12z")].

Definition boJoins : JoinQuizPage.data :=
  {| JoinQuizPage.roomCode := "AB12Z"; JoinQuizPage.playerName := "Bo" |}.

Definition bobbyJoins : JoinQuizPage.data :=
  {| JoinQuizPage.roomCode := "AB12Z"; JoinQuizPage.playerName := "Bobby" |}.

(** The digits of a draw whose code is ["AB12Z"]. *)
Definition draw : list nat := [10; 11; 1; 2; 35; 7; 20]%nat.

Definition ada : App := initialApp "adaId".
Definition bo : App := initialApp "boId".

Definition emptyWorld (c : App) : World := {| client := c; store := ∅ |}.

(** Ada has created a room of two questions, and Bo has joined it. *)
Definition adaCreated : World :=
  fst (handleCreateQuiz ada draw (JsonArray [tides; deepest]) 0 oceans (emptyWorld ada)).

Definition boJoined : World := after (fun c => handleJoinQuiz c boJoins) (seenFrom bo adaCreated).

(** The room as it is then stored. *)
Definition twoInLobby : Room :=
  {| topic := "Oceans"; difficulty := "Easy"; timer := 30; status := Lobby;
     hostId := "adaId"; createdAt := 0; questions := [tides; deepest];
     players := {[ "adaId" := freshPlayer "adaId" "Ada"; "boId" := freshPlayer "boId" "Bo" ]} |}.

(** Ada has received the snapshot of the room with Bo in it, and has
    started the quiz; both have received the snapshot that says so. *)
Definition adaInLobby : World := snapshot (seenFrom (client adaCreated) boJoined).
Definition adaStarted : World := after handleStartQuiz (seenFrom (client adaCreated) boJoined).
Definition boOnQuiz : World := snapshot (seenFrom (client boJoined) adaStarted).
Definition adaOnQuiz : World := snapshot adaStarted.

(** Bo has answered the first question correctly, and his client has not
    yet received the snapshot that carries the new score. *)
Definition boUnrefreshed : World := after (fun c => handleAnswerSubmit c "The Moon") boOnQuiz.

(** Bo has received it; Ada has let her client time out on the first
    question and has received the snapshot too. *)
Definition boOnLast : World := snapshot boUnrefreshed.
Definition adaOnLast : World :=
  snapshot (after (fun c => handleAnswerSubmit c QuizPage.noAnswer)
              (seenFrom (client adaOnQuiz) boOnLast)).

(** Ada starts the quiz and Bo answers both questions. *)
Definition playedThrough : list Op :=
  [StartQuiz (client adaInLobby);
   SubmitAnswer (client boOnQuiz) "The Moon";
   SubmitAnswer (client boOnLast) "Pacific"].

(** The same, as events of a system of two clients, Ada's being number 0
    and Bo's number 1; Ada's client takes no snapshot after the start. *)
Definition playedThroughEvents : list (nat * Event) :=
  [(0, Navigate PCreate); (0, TypeHostName "Ada");
   (0, Create draw (JsonArray [tides; deepest]) 0 oceansForm);
   (1, Navigate PJoin); (1, Join boTypes); (0, Snapshot); (0, Start);
   (1, Snapshot); (1, Select "The Moon"); (1, Submit);
   (1, Snapshot); (1, Select "Pacific"); (1, Submit)]%nat.

(** The events that bring Bo's client to the last second of the countdown
    of the first question, and the system they lead to. *)
Definition countdownEvents : list (nat * Event) :=
  [(0, Navigate PCreate); (0, TypeHostName "Ada");
   (0, Create draw (JsonArray [tides; deepest]) 0 oceansForm);
   (1, Navigate PJoin); (1, Join boTypes); (0, Snapshot); (0, Start);
   (1, Snapshot)]%nat ++ replicate 29 (1%nat, Tick).

Definition atLastSecond : System :=
  default (initialSystem []) (steps countdownEvents (initialSystem ["adaId"; "boId"])).

Definition lastSecond : QuizPage.state :=
  {| QuizPage.timeLeft := 1; QuizPage.interval := true |}.

(** Bo has picked an option on the first question and has not submitted
    it.  The countdown fires and submits the sentinel; while that write
    is under way Bo clicks Submit Answer; then both calls are resumed. *)
Definition boPicked : World := after (fun _ => setSelectedAnswer (Some "The wind")) boOnQuiz.
Definition timedOut : World := after (fun c => beginSubmit c QuizPage.noAnswer) boPicked.
Definition clicked : World := after QuizPage.handleButtonClickBegin timedOut.
Definition bothResumed : World :=
  fst (resumeSubmit (client timedOut) (fst (resumeSubmit (client boPicked) clicked))).

(** ** What a handler may do

    A handler respects a relation between worlds when every call of it
    leads from a world to a related one, whether it returns or throws. *)
Definition respects (R : World → World → Prop) {A} (m : M A) : Prop :=
  ∀ w, R w (fst (m w)).

(** *** To the stored rooms *)

(** [room'] is [room] with another status, entries added to [players] or
    entries of [players] replaced: the fields written at creation are the
    same and no player has gone. *)
Definition extends (room room' : Room) : Prop :=
  topic room' = topic room ∧
  difficulty room' = difficulty room ∧
  timer room' = timer room ∧
  hostId room' = hostId room ∧
  createdAt room' = createdAt room ∧
  questions room' = questions room ∧
  ∀ uid, is_Some (players room !! uid) → is_Some (players room' !! uid).

(** [st'] has the rooms of [st], each extended, and no other room. *)
Definition storeExtends (st st' : gmap string Room) : Prop :=
  ∀ code,
    match st !! code, st' !! code with
    | Some room, Some room' => extends room room'
    | None, None => True
    | _, _ => False
    end.

(** A computation that only extends the store, whatever it returns. *)
Definition extending {A} (m : M A) : Prop :=
  respects (fun w w' => storeExtends (store w) (store w')) m.

(** The player stored under [uid] in the room [code]. *)
Definition storedPlayer (code uid : string) (st : gmap string Room) : option Player :=
  room ← st !! code; players room !! uid.

(** *** To the scores *)

Definition scoreOk (z : Z) : Prop := ∃ n : nat, z = 10 * Z.of_nat n.

(** The host of the room is one of its players, and every score in it
    is a multiple of ten. *)
Definition roomGood (room : Room) : Prop :=
  is_Some (players room !! hostId room) ∧
  ∀ uid p z, players room !! uid = Some p → score p = Some z → scoreOk z.

(** Every stored room is good, and so is the client's copy of its room. *)
Definition good (w : World) : Prop :=
  (∀ code room, store w !! code = Some room → roomGood room) ∧
  (∀ qd, quizData (client w) = Some qd → roomGood qd).

Definition keepsGood {A} (m : M A) : Prop := respects (fun w w' => good w → good w') m.

Definition fieldGood (u : FieldUpdate) : Prop :=
  match u with
  | SetPlayer _ p => ∀ z, score p = Some z → scoreOk z
  | SetPlayerScore _ z => scoreOk z
  | _ => True
  end.

Definition systemGood (sys : System) : Prop :=
  (∀ code room, docs sys !! code = Some room → roomGood room) ∧
  (∀ i s qd, sessions sys !! i = Some s → quizData (app s) = Some qd → roomGood qd).

(** *** To the page and to the selection *)

(** The computation did not open the quiz page. *)
Definition offQuiz (w w' : World) : Prop :=
  page (client w') = PQuiz → page (client w) = PQuiz.

Definition sameSelection (w w' : World) : Prop :=
  selectedAnswer (client w') = selectedAnswer (client w).

(** ** Playing a quiz through *)

(** The client answers and then receives the snapshot of the room. *)
Definition playOne (answer : string) (w : World) : World :=
  snapshot (after (fun c => handleAnswerSubmit c answer) w).

Definition playAll (answers : list string) (w : World) : World :=
  fold_left (fun acc answer => playOne answer acc) answers w.

(** The records of the answers [answers] given, in order, to the
    questions [qs], the first of which has index [k]. *)
Fixpoint graded (k : nat) (qs : list Question) (answers : list string) : list Answer :=
  match qs, answers with
  | q :: qs', a :: answers' =>
      {| questionIndex := k; answer := a; isCorrect := String.eqb a (correctAnswer q) |}
      :: graded (S k) qs' answers'
  | _, _ => []
  end.

(** The state of a client in the middle of a quiz whose copy of its own
    entry is the stored one, with the score [s]. *)
Definition playing (room : Room) (s : Z) (w : World) : Prop :=
  store w !! roomCode (client w) = Some room ∧
  quizData (client w) = Some room ∧
  page (client w) = PQuiz ∧
  status room = InProgress ∧
  ∃ p, players room !! userId (client w) = Some p ∧
       score p = Some s ∧
       answers p = Some (userAnswers (client w)).

(** ** [ResultsPage] *)

Module ResultsPage.
(** [user.answers.filter(a => a.isCorrect).length] *)
Definition correctAnswers (l : list Answer) : nat :=
  length (List.filter isCorrect l).

(** [user.answers.find(a => a.questionIndex === index)] *)
Definition userAnswer (l : list Answer) (index : nat) : option Answer :=
  List.find (fun a => (questionIndex a =? index)%nat) l.
End ResultsPage.

(** ** The call of the model *)

Module Gemini.
(** The part of a response body that [callGeminiAPI] reads; a field is
    [None] when it is missing or null. *)
Record Part := { text : option string }.
Record Content := { parts : option (list Part) }.
Record Candidate := { content : option Content }.
Record Body := { candidates : option (list Candidate) }.

(** What [fetch] and [response.json()] gave: [fetch] rejected, or it
    resolved with a status and the body failed to parse, or parsed to
    [null] ([None]) or to an object. *)
Inductive Fetched :=
| Rejected (message : string)
| Responded (status : nat) (json : Res (option Body)).

(** [response.ok] *)
Definition ok (status : nat) : bool := (200 <=? status)%nat && (status <=? 299)%nat.
End Gemini.

Definition msgInvalidContent : string := "Failed to get valid content from AI response.".

Definition msgNullResult : string :=
  "Cannot read properties of null (reading 'candidates')".

Definition msgRequestFailed (status : nat) : string :=
  "API request failed with status " ++ NilEmpty.string_of_uint (Nat.to_uint status).

(** [callGeminiAPI]: the text of the first part of the first candidate.
    The body is read before the status is looked at; the [catch] throws
    again what it caught. *)
Definition callGeminiAPI (fetched : Gemini.Fetched) : Res string :=
  match fetched with
  | Gemini.Rejected message => Throw message
  | Gemini.Responded status json =>
      match json with
      | Throw message => Throw message
      | Ok result =>
          if negb (Gemini.ok status) then Throw (msgRequestFailed status)
          else
            match result with
            | None => Throw msgNullResult
            | Some body =>
                let candidate := cs ← Gemini.candidates body; cs !! 0%nat in
                let part :=
                  c ← candidate; ct ← Gemini.content c; ps ← Gemini.parts ct; ps !! 0%nat in
                match part ≫= Gemini.text with
                | Some (String a s) => Ok (String a s)
                | _ => Throw msgInvalidContent
                end
            end
      end
  end.

Module Summary.
(** The state of [ResultsPage]. *)
Record state := { aiSummary : string; isSummaryLoading : bool }.

Definition apology : string :=
  "Sorry, I couldn't generate a summary at this time. Please try again later.".

(** [getAIPerformanceSummary] up to its [await]. *)
Definition requested : state := {| aiSummary := ""; isSummaryLoading := true |}.

(** [getAIPerformanceSummary] once the call has returned or thrown. *)
Definition completed (fetched : Gemini.Fetched) : state :=
  {| aiSummary := match callGeminiAPI fetched with
                  | Ok summary => summary
                  | Throw _ => apology
                  end;
     isSummaryLoading := false |}.
End Summary.

(** ** The join form, input by input *)

(** The last value typed into the input [target], [initial] if none. *)
Fixpoint lastTyped (target : JoinQuizPage.field) (edits : list (JoinQuizPage.field * string))
    (initial : string) : string :=
  match edits with
  | [] => initial
  | (f, v) :: edits' =>
      lastTyped target edits'
        (match f, target with
         | JoinQuizPage.FRoomCode, JoinQuizPage.FRoomCode
         | JoinQuizPage.FPlayerName, JoinQuizPage.FPlayerName => v
         | _, _ => initial
         end)
  end.

(** ** More sample values *)

(** The system of Ada's and Bo's clients after the events [es]. *)
Definition systemAfter (es : list (nat * Event)) : System :=
  default (initialSystem []) (steps es (initialSystem ["adaId"; "boId"])).

(** Ada's client shows the lobby with Bo in it. *)
Definition lobbyShown : System := systemAfter (take 6 countdownEvents).

(** Both are in the room, the quiz is started and Bo's client has just
    shown the first question. *)
Definition quizShown : System := systemAfter (take 8 countdownEvents).

(** Bo has picked an option on the first question. *)
Definition boSelected : System :=
  systemAfter (take 8 countdownEvents ++ [(1%nat, Select "The Moon")]).

(** Bo has submitted that option. *)
Definition boSubmitted : System :=
  systemAfter (take 8 countdownEvents ++ [(1%nat, Select "The Moon"); (1%nat, Submit)]).


(** Bo takes part from two clients under his one identifier, numbers 1
    and 2.  Both show the first question; the first has submitted the
    correct option and has received the snapshot of its write; the
    second, which has not yet received it, has picked the same option. *)
Definition twoClientsEvents : list (nat * Event) :=
  [(0, Navigate PCreate); (0, TypeHostName "Ada");
   (0, Create draw (JsonArray [tides; deepest]) 0 oceansForm);
   (1, Navigate PJoin); (1, Join boTypes); (2, Navigate PJoin); (2, Join boTypes);
   (0, Snapshot); (0, Start); (1, Snapshot); (2, Snapshot);
   (1, Select "The Moon"); (1, Submit); (1, Snapshot);
   (2, Select "The Moon")]%nat.

(** Bo has let the first question time out. *)
Definition boTimedOut : System := systemAfter (countdownEvents ++ [(1%nat, Tick)]).

Definition quizPlayed : System := systemAfter playedThroughEvents.

(** The room as it is stored once the quiz is started. *)
Definition twoOnQuiz : Room := with_status InProgress twoInLobby.

(** A render of Bo's client whose question index is out of range. *)
Definition boPastTheEnd : App :=
  client (after (fun _ => setCurrentQuestionIndex (fun _ => 2%nat)) boOnQuiz).

(** A response whose first candidate holds a text. *)
Definition wellDone : Gemini.Fetched :=
  Gemini.Responded 200
    (Ok (Some {| Gemini.candidates :=
                   Some [ {| Gemini.content :=
                               Some {| Gemini.parts :=
                                         Some [ {| Gemini.text := Some "Well done." |} ] |} |} ] |})).

(** The room as Ada's creation stores it. *)
Definition adaAlone : Room :=
  {| topic := "Oceans"; difficulty := "Easy"; timer := 30; status := Lobby;
     hostId := "adaId"; createdAt := 0; questions := [tides; deepest];
     players := {[ "adaId" := freshPlayer "adaId" "Ada" ]} |}.

(** Bo's session in a system of Ada's and Bo's clients. *)
Definition boIn (sys : System) : Session :=
  default {| app := bo; quizPage := None |} (sessions sys !! 1%nat).

(** * Properties *)

(** Unfolds the sequencing of a handler down to the store lookups. *)
Ltac run_handler :=
  unfold mbind, M_bind, mret, M_ret, tryCatch, throw, getDoc, setDoc,
    updateDoc, updApp in *;
  cbn in *.

(** ** The store *)

Lemma apply_fields_answers_score (uid : string) (l : list Answer) (z : Z) (r : Room) :
  players (apply_fields [SetPlayerAnswers uid l; SetPlayerScore uid z] r)
  = <[uid := with_score z (with_answers l (default noPlayer (players r !! uid)))]>
      (players r).
Proof.
  cbn. unfold nested. cbn. rewrite lookup_insert_eq. cbn.
  by rewrite insert_insert_eq.
Qed.

(** ** Room creation *)

Lemma handleCreateQuiz_cases (c : App) (ds : list nat) (response : Generated)
    (now : Z) (settings : Settings.t) (w : World) :
  handleCreateQuiz c ds response now settings w =
    match response with
    | JsonArray (q :: items) => (created c ds (q :: items) now settings w, Ok tt)
    | _ => (refused w, Throw msgGenerationFailed)
    end.
Proof.
  unfold handleCreateQuiz, generateAIQuestions. run_handler.
  destruct response as [| | |[|q items]]; reflexivity.
Qed.

(** C5 (as amended).  Room creation fails with the generation message,
    writing nothing to the store, whenever the generator's round trip did
    not produce a non-empty array, whatever the code drawn; a non-empty
    array is accepted whatever its items are, and, the code being drawn
    from at least one digit, becomes the [questions] of the room stored
    under the new code. *)
Theorem create_accepts_any_nonempty_array (c : App) (ds : list nat)
    (response : Generated) (now : Z) (settings : Settings.t) (w : World) :
  let result := handleCreateQuiz c ds response now settings w in
  match response with
  | JsonArray (q :: items) =>
      ds ≠ [] →
      snd result = Ok tt ∧
      questions <$> store (fst result) !! generateRoomCode ds = Some (q :: items)
  | _ =>
      snd result = Throw msgGenerationFailed ∧
      store (fst result) = store w ∧
      error (client (fst result)) = msgGenerationFailed
  end.
Proof.
  cbn zeta. rewrite handleCreateQuiz_cases.
  destruct response as [| | |[|q items]]; cbn; try done.
  intros _. split; [done|]. by rewrite lookup_insert_eq.
Qed.

Lemma create_accepts_any_nonempty_array_witness :
  snd (handleCreateQuiz ada draw (JsonArray [tides; deepest]) 0 oceans (emptyWorld ada)) = Ok tt ∧
  questions <$> store (fst (handleCreateQuiz ada draw (JsonArray [tides; deepest]) 0 oceans
                              (emptyWorld ada))) !! generateRoomCode draw
  = Some [tides; deepest].
Proof.
  assert (H := create_accepts_any_nonempty_array ada draw (JsonArray [tides; deepest]) 0 oceans
                 (emptyWorld ada)).
  cbv beta zeta iota in H. apply H. discriminate.
Defined.

(** C5 (as stated) fails: an array whose only question has a correct
    answer that is none of its options is not rejected, and the room is
    created with it. *)
Lemma create_accepts_ill_formed_question :
  ¬ specWellFormed saltiest ∧
  let result := handleCreateQuiz ada draw (JsonArray [saltiest]) 0 oceans (emptyWorld ada) in
  snd result = Ok tt ∧
  questions <$> store (fst result) !! "AB12Z" = Some [saltiest].
Proof.
  split.
  - intros (_ & _ & Hin).
    apply (bool_decide_eq_false_1 (correctAnswer saltiest ∈ options saltiest));
      [vm_compute; reflexivity | exact Hin].
  - vm_compute. done.
Qed.

(** C6.  After a room creation that succeeded, reading the room under the
    code that the creation put in [roomCode] gives a room in Lobby whose
    players are the host alone, with score 0 and no answers. *)
Theorem create_then_get (c : App) (ds : list nat) (response : Generated)
    (now : Z) (settings : Settings.t) (w : World) :
  snd (handleCreateQuiz c ds response now settings w) = Ok tt →
  let w' := fst (handleCreateQuiz c ds response now settings w) in
  ∃ room,
    snd (getDoc (roomCode (client w')) w') = Ok (Some room) ∧
    status room = Lobby ∧
    players room =
      {[ userId c := {| id := Some (userId c); name := Some (Settings.hostName settings);
                        score := Some 0; answers := Some [] |} ]}.
Proof.
  rewrite handleCreateQuiz_cases.
  destruct response as [| | |[|q items]]; cbn; try done.
  intros _. eexists. rewrite lookup_insert_eq. done.
Qed.

Lemma create_then_get_witness :
  ∃ room,
    snd (getDoc (roomCode (client adaCreated)) adaCreated) = Ok (Some room) ∧
    status room = Lobby ∧
    players room =
      {[ "adaId" := {| id := Some "adaId"; name := Some "Ada";
                       score := Some 0; answers := Some [] |} ]}.
Proof.
  apply (create_then_get ada draw (JsonArray [tides; deepest]) 0 oceans (emptyWorld ada)).
  vm_compute. reflexivity.
Defined.

(** ** Joining *)

(** The three outcomes of a join: no room, a room in Lobby, a room that
    has left Lobby. *)
Lemma handleJoinQuiz_cases (c : App) (data : JoinQuizPage.data) (w : World) :
  let result := handleJoinQuiz c data w in
  snd result = Ok tt ∧
  match store w !! JoinQuizPage.roomCode data with
  | None =>
      store (fst result) = store w ∧
      error (client (fst result)) = msgRoomNotFound ∧
      page (client (fst result)) = page (client w) ∧
      roomCode (client (fst result)) = roomCode (client w)
  | Some room =>
      if decide (status room = Lobby) then
        store (fst result) =
          <[JoinQuizPage.roomCode data :=
              with_players
                (<[userId c := freshPlayer (userId c) (JoinQuizPage.playerName data)]>
                   (players room)) room]> (store w) ∧
        error (client (fst result)) = "" ∧
        page (client (fst result)) = PLobby ∧
        roomCode (client (fst result)) = JoinQuizPage.roomCode data
      else
        store (fst result) = store w ∧
        error (client (fst result)) = msgAlreadyStarted ∧
        page (client (fst result)) = page (client w) ∧
        roomCode (client (fst result)) = roomCode (client w)
  end.
Proof.
  unfold handleJoinQuiz. run_handler.
  destruct (store w !! JoinQuizPage.roomCode data) as [room|] eqn:E; cbn; [|done].
  destruct (decide (status room ≠ Lobby)) as [Hne|Heq]; cbn.
  - by rewrite decide_False.
  - apply dec_stable in Heq. rewrite decide_True by done.
    rewrite E. cbn. done.
Qed.


(** C7.  Joining a Lobby room under an identifier that already has an
    entry replaces the entry by a fresh one, with score 0 and no answers,
    whatever the old entry held; the other entries stay. *)
Theorem rejoin_resets (c : App) (data : JoinQuizPage.data) (w : World)
    (room : Room) (old : Player) :
  store w !! JoinQuizPage.roomCode data = Some room →
  status room = Lobby →
  players room !! userId c = Some old →
  ∃ room',
    store (fst (handleJoinQuiz c data w)) !! JoinQuizPage.roomCode data = Some room' ∧
    status room' = Lobby ∧
    players room' !! userId c =
      Some {| id := Some (userId c); name := Some (JoinQuizPage.playerName data);
              score := Some 0; answers := Some [] |} ∧
    ∀ other, other ≠ userId c → players room' !! other = players room !! other.
Proof.
  intros Hroom Hst _. destruct (handleJoinQuiz_cases c data w) as [_ Hc].
  rewrite Hroom, decide_True in Hc by done. destruct Hc as (-> & _).
  eexists. rewrite lookup_insert_eq. split; [done|]. cbn.
  split; [done|]. split; [by rewrite lookup_insert_eq|].
  intros other Hne. by rewrite lookup_insert_ne.
Qed.


Lemma rejoin_resets_witness :
  ∃ room',
    store (fst (handleJoinQuiz (client boJoined) bobbyJoins boJoined)) !! "AB12Z" = Some room' ∧
    status room' = Lobby ∧
    players room' !! "boId" =
      Some {| id := Some "boId"; name := Some "Bobby"; score := Some 0; answers := Some [] |} ∧
    ∀ other, other ≠ "boId" → players room' !! other = players twoInLobby !! other.
Proof.
  apply (rejoin_resets (client boJoined) bobbyJoins boJoined twoInLobby
           (freshPlayer "boId" "Bo")); vm_compute; reflexivity.
Defined.

(** ** Answering *)

(** What an answer does when the client has a snapshot, the snapshot has a
    question at the client's index, and the room is in the store. *)
Lemma handleAnswerSubmit_cases (c : App) (answer : string) (w : World)
    (qd : Room) (q : Question) (room : Room) :
  quizData c = Some qd →
  questions qd !! currentQuestionIndex c = Some q →
  store w !! roomCode c = Some room →
  let result := handleAnswerSubmit c answer w in
  snd result = Ok tt ∧
  store (fst result) =
    <[roomCode c := if isLast c qd then with_status Finished (written c qd q answer room)
                    else written c qd q answer room]> (store w) ∧
  userAnswers (client (fst result)) = updatedAnswers c q answer ∧
  currentQuestionIndex (client (fst result)) =
    (if isLast c qd then currentQuestionIndex (client w)
     else S (currentQuestionIndex (client w))) ∧
  page (client (fst result)) = (if isLast c qd then PResults else page (client w)) ∧
  roomCode (client (fst result)) = roomCode (client w) ∧
  userId (client (fst result)) = userId (client w) ∧
  quizData (client (fst result)) = quizData (client w).
Proof.
  intros Hqd Hq Hroom. unfold handleAnswerSubmit, submitWrite, submitResume, isLast.
  rewrite Hqd, Hq. run_handler. rewrite Hroom. cbn.
  destruct (Z.of_nat (currentQuestionIndex c) <? Z.of_nat (length (questions qd)) - 1);
    cbn; [done|].
  rewrite lookup_insert_eq. cbn. rewrite insert_insert_eq. done.
Qed.

(** A submission that is not interrupted is its two parts in a row. *)
Lemma handleAnswerSubmit_split (c : App) (answer : string) (w : World) :
  handleAnswerSubmit c answer w = (beginSubmit c answer ;; resumeSubmit c) w.
Proof.
  unfold handleAnswerSubmit, beginSubmit, resumeSubmit.
  destruct (quizData c) as [qd|]; [|reflexivity].
  destruct (questions qd !! currentQuestionIndex c); reflexivity.
Qed.

(** The store after the first part of a submission: the status of no
    room has changed. *)
Lemma beginSubmit_status (c : App) (answer : string) (w : World) (code : string) :
  statusOf code (store (fst (beginSubmit c answer w))) = statusOf code (store w).
Proof.
  unfold beginSubmit, submitWrite.
  destruct (quizData c) as [qd|]; [|done].
  destruct (questions qd !! currentQuestionIndex c) as [q|]; [|done].
  run_handler. destruct (store w !! roomCode c) as [room|] eqn:Hroom; [|done]. cbn.
  unfold statusOf. rewrite lookup_insert. case_decide as Hc; [|done].
  subst code. by rewrite Hroom.
Qed.

(** The store after the second part of a submission made at the last
    index. *)
Lemma resumeSubmit_last (c : App) (w : World) (qd : Room) :
  quizData c = Some qd →
  length (questions qd) = S (currentQuestionIndex c) →
  is_Some (store w !! roomCode c) →
  statusOf (roomCode c) (store (fst (resumeSubmit c w))) = Some Finished.
Proof.
  intros Hqd Hlen [room Hroom]. unfold resumeSubmit, submitResume. rewrite Hqd, Hlen.
  rewrite (proj2 (Z.ltb_ge _ _)) by lia. run_handler. rewrite Hroom. cbn.
  unfold statusOf. by rewrite lookup_insert_eq.
Qed.

Lemma statusOf_is_Some (code : string) (st : gmap string Room) (s : Status) :
  statusOf code st = Some s → is_Some (st !! code).
Proof. unfold statusOf. destruct (st !! code); [eauto|done]. Qed.

Lemma is_Some_statusOf (code : string) (st : gmap string Room) :
  is_Some (st !! code) → is_Some (statusOf code st).
Proof. unfold statusOf. intros [room ->]. eauto. Qed.

(** C1.  An answer submitted at the last index of the question sequence
    that the client holds for the room leaves the stored room Finished,
    and so does a second such answer, from the same client or from
    another one: both when the second is given after the first has run to
    its end, and when the two race, each writing its answer before either
    is resumed to write the status. *)
Theorem last_answer_finishes (c1 c2 : App) (a1 a2 : string) (w : World)
    (qd1 qd2 : Room) (room : Room) :
  quizData c1 = Some qd1 →
  length (questions qd1) = S (currentQuestionIndex c1) →
  store w !! roomCode c1 = Some room →
  quizData c2 = Some qd2 →
  length (questions qd2) = S (currentQuestionIndex c2) →
  roomCode c2 = roomCode c1 →
  (let w1 := fst (handleAnswerSubmit c1 a1 w) in
   let w2 := fst (handleAnswerSubmit c2 a2 (seenFrom c2 w1)) in
   statusOf (roomCode c1) (store w1) = Some Finished ∧
   statusOf (roomCode c1) (store w2) = Some Finished) ∧
  (let w1 := fst (beginSubmit c1 a1 w) in
   let v1 := fst (beginSubmit c2 a2 (seenFrom c2 w1)) in
   let w2 := fst (resumeSubmit c1 (seenFrom (client w1) v1)) in
   let v2 := fst (resumeSubmit c2 (seenFrom (client v1) w2)) in
   statusOf (roomCode c1) (store w2) = Some Finished ∧
   statusOf (roomCode c1) (store v2) = Some Finished).
Proof.
  intros Hqd1 Hlen1 Hroom Hqd2 Hlen2 Hcode.
  assert (Hhere : is_Some (statusOf (roomCode c1) (store w)))
    by (apply is_Some_statusOf; eauto).
  split; cbn zeta.
  - rewrite !handleAnswerSubmit_split. unfold mbind, M_bind.
    assert (Hb1 := beginSubmit_status c1 a1 w (roomCode c1)).
    destruct (beginSubmit c1 a1 w) as [w1 [[]|e1]] eqn:Hw1; cbn in *.
    2: { exfalso. revert Hw1. unfold beginSubmit, submitWrite. rewrite Hqd1.
        destruct (lookup_lt_is_Some_2 (questions qd1) (currentQuestionIndex c1)) as [q Hq];
          [lia|]. rewrite Hq. run_handler. by rewrite Hroom. }
    assert (H1 : statusOf (roomCode c1) (store (fst (resumeSubmit c1 w1))) = Some Finished).
    { apply (resumeSubmit_last c1 w1 qd1 Hqd1 Hlen1).
      destruct Hhere as [s Hs]. eapply statusOf_is_Some. by rewrite Hb1. }
    split; [exact H1|].
    assert (Hb2 := beginSubmit_status c2 a2 (seenFrom c2 (fst (resumeSubmit c1 w1))) (roomCode c1)).
    cbn in Hb2. rewrite H1 in Hb2.
    destruct (beginSubmit c2 a2 (seenFrom c2 (fst (resumeSubmit c1 w1)))) as [v1 [[]|e2]];
      cbn in *; [|done].
    rewrite <- Hcode. apply (resumeSubmit_last c2 v1 qd2 Hqd2 Hlen2).
    rewrite Hcode. by eapply statusOf_is_Some.
  - assert (Hb1 := beginSubmit_status c1 a1 w (roomCode c1)).
    assert (Hb2 := beginSubmit_status c2 a2 (seenFrom c2 (fst (beginSubmit c1 a1 w)))
                     (roomCode c1)).
    cbn in Hb2. rewrite Hb1 in Hb2. destruct Hhere as [s Hs]. rewrite Hs in Hb2.
    match goal with |- ?A ∧ _ => assert (H1 : A) end.
    { apply (resumeSubmit_last c1 _ qd1 Hqd1 Hlen1). cbn. by eapply statusOf_is_Some. }
    split; [exact H1|].
    rewrite <- Hcode. apply (resumeSubmit_last c2 _ qd2 Hqd2 Hlen2).
    cbn. rewrite Hcode. by eapply statusOf_is_Some.
Qed.

Lemma last_answer_finishes_witness :
  (let w1 := fst (handleAnswerSubmit (client boOnLast) "Pacific" (seenFrom (client boOnLast) adaOnLast)) in
   let w2 := fst (handleAnswerSubmit (client adaOnLast) "Arctic" (seenFrom (client adaOnLast) w1)) in
   statusOf "AB12Z" (store w1) = Some Finished ∧
   statusOf "AB12Z" (store w2) = Some Finished) ∧
  (let w1 := fst (beginSubmit (client boOnLast) "Pacific" (seenFrom (client boOnLast) adaOnLast)) in
   let v1 := fst (beginSubmit (client adaOnLast) "Arctic" (seenFrom (client adaOnLast) w1)) in
   let w2 := fst (resumeSubmit (client boOnLast) (seenFrom (client w1) v1)) in
   let v2 := fst (resumeSubmit (client adaOnLast) (seenFrom (client v1) w2)) in
   statusOf "AB12Z" (store w2) = Some Finished ∧
   statusOf "AB12Z" (store v2) = Some Finished).
Proof.
  eapply (last_answer_finishes (client boOnLast) (client adaOnLast) "Pacific" "Arctic"
            (seenFrom (client boOnLast) adaOnLast));
    vm_compute; reflexivity.
Defined.

Lemma eqb_bool_decide (x y : string) : String.eqb x y = bool_decide (x = y).
Proof.
  destruct (String.eqb_spec x y) as [->|Hne].
  - by rewrite bool_decide_eq_true_2.
  - by rewrite bool_decide_eq_false_2.
Qed.

Lemma scoreIncrement_decide (x y : string) :
  scoreIncrement (String.eqb x y) = if decide (x = y) then 10 else 0.
Proof.
  rewrite eqb_bool_decide. unfold scoreIncrement. by case_bool_decide; case_decide.
Qed.

(** The player's entry in the stored room after an answer. *)
Lemma handleAnswerSubmit_entry (c : App) (answer : string) (w : World)
    (qd : Room) (q : Question) (room : Room) :
  quizData c = Some qd →
  questions qd !! currentQuestionIndex c = Some q →
  store w !! roomCode c = Some room →
  ∃ room',
    store (fst (handleAnswerSubmit c answer w)) !! roomCode c = Some room' ∧
    players room' !! userId c =
      Some (with_score
              (currentScore c qd + (if decide (answer = correctAnswer q) then 10 else 0))
              (with_answers (updatedAnswers c q answer)
                 (default noPlayer (players room !! userId c)))).
Proof.
  intros Hqd Hq Hroom.
  destruct (handleAnswerSubmit_cases c answer w qd q room Hqd Hq Hroom) as (_ & Hst & _).
  rewrite Hst, lookup_insert_eq.
  eexists; split; [done|].
  assert (Hp : players (if isLast c qd then with_status Finished (written c qd q answer room)
                        else written c qd q answer room)
               = players (written c qd q answer room)) by by destruct (isLast c qd).
  rewrite Hp. unfold written. rewrite apply_fields_answers_score, lookup_insert_eq.
  cbn. by rewrite scoreIncrement_decide.
Qed.




(** The same with every client receiving the snapshot of its own writes
    at once: Bo answers from a second client that has not yet received
    the snapshot of the write of his first. *)
Lemma correct_answer_adds_nothing_across_clients :
  ∃ sys sys',
    steps twoClientsEvents (initialSystem ["adaId"; "boId"; "boId"]) = Some sys ∧
    step 2 Submit sys = Some sys' ∧
    statusOf "AB12Z" (docs sys) = Some InProgress ∧
    (s ← sessions sys !! 2%nat; selectedAnswer (app s)) = Some (correctAnswer tides) ∧
    storedScore "AB12Z" "boId" (docs sys) = Some 10 ∧
    storedScore "AB12Z" "boId" (docs sys') = Some 10.
Proof.
  exists (default (initialSystem [])
            (steps twoClientsEvents (initialSystem ["adaId"; "boId"; "boId"]))),
         (default (initialSystem [])
            (steps (twoClientsEvents ++ [(2%nat, Submit)])
               (initialSystem ["adaId"; "boId"; "boId"]))).
  vm_compute. done.
Qed.

(** C10.  The score that an answer stores for the calling player is the
    score of that player in the snapshot that the client holds, or 0 if
    the snapshot has no such player or no score for it, plus the award;
    the score that the store held before the write plays no part. *)
Theorem score_written_from_snapshot (c : App) (answer : string) (w : World)
    (qd : Room) (q : Question) (room : Room) :
  quizData c = Some qd →
  questions qd !! currentQuestionIndex c = Some q →
  store w !! roomCode c = Some room →
  let observed :=
    match players qd !! userId c with
    | Some p => default 0 (score p)
    | None => 0
    end in
  let award := if decide (answer = correctAnswer q) then 10 else 0 in
  ∃ room' p',
    store (fst (handleAnswerSubmit c answer w)) !! roomCode c = Some room' ∧
    players room' !! userId c = Some p' ∧
    score p' = Some (observed + award).
Proof.
  intros Hqd Hq Hroom.
  destruct (handleAnswerSubmit_entry c answer w qd q room Hqd Hq Hroom)
    as (room' & Hroom' & Hp').
  cbn zeta. exists room'. eexists. split; [done|]. split; [exact Hp'|].
  cbn. unfold currentScore. by destruct (players qd !! userId c).
Qed.

Lemma score_written_from_snapshot_witness :
  storedScore "AB12Z" "boId" (store boUnrefreshed) = Some 10 ∧
  ∃ room' p',
    store (fst (handleAnswerSubmit (client boUnrefreshed) "Pacific" boUnrefreshed)) !! "AB12Z"
      = Some room' ∧
    players room' !! "boId" = Some p' ∧
    score p' = Some (0 + 10).
Proof.
  split; [vm_compute; reflexivity|].
  eapply (score_written_from_snapshot (client boUnrefreshed) "Pacific" boUnrefreshed
            (with_status InProgress twoInLobby) deepest);
    vm_compute; reflexivity.
Defined.

(** ** Room codes *)

Lemma substring_digits36 (n : nat) (ds : list nat) :
  String.substring 0 n (digits36 ds) = digits36 (take n ds).
Proof.
  revert ds. induction n as [|n IH]; intros [|d ds]; cbn; try done.
  by rewrite IH.
Qed.

Lemma generateRoomCode_digits (ds : list nat) :
  generateRoomCode ds = toUpperCase (digits36 (take 5 ds)).
Proof.
  unfold generateRoomCode, jsSubstring, toString36.
  destruct ds as [|d ds]; [reflexivity|].
  change (String.substring 2 (7 - 2) ("0." ++ digits36 (d :: ds))%string)
    with (String.substring 0 5 (digits36 (d :: ds))).
  by rewrite substring_digits36.
Qed.

Lemma toUpperCase_length (s : string) : String.length (toUpperCase s) = String.length s.
Proof. induction s as [|a s IH]; cbn; [done|]. by rewrite IH. Qed.

Lemma digits36_length (ds : list nat) : String.length (digits36 ds) = length ds.
Proof. induction ds as [|d ds IH]; cbn; [done|]. by rewrite IH. Qed.

(** A code has as many characters as the draw has digits, up to five. *)
Lemma generateRoomCode_length (ds : list nat) :
  String.length (generateRoomCode ds) = (length ds `min` 5)%nat.
Proof.
  rewrite generateRoomCode_digits, toUpperCase_length, digits36_length, length_take.
  lia.
Qed.

Lemma digit36_upper (d : nat) : (d < 36)%nat → isUpperAlnum (upperAscii (digit36 d)) = true.
Proof.
  intros H. do 36 (destruct d as [|d]; [vm_compute; reflexivity|]). lia.
Qed.

(** Every character of a code is a digit or an upper-case letter. *)
Lemma generateRoomCode_alphabet (ds : list nat) :
  Forall (fun d => (d < 36)%nat) ds → allChars isUpperAlnum (generateRoomCode ds) = true.
Proof.
  intros H. rewrite generateRoomCode_digits.
  assert (H5 : Forall (fun d => (d < 36)%nat) (take 5 ds)) by by apply Forall_take.
  induction H5 as [|d l Hd _ IH]; cbn; [done|].
  rewrite digit36_upper by done. exact IH.
Qed.

Lemma upperAscii_not_lower (a : ascii) : isLower (upperAscii a) = false.
Proof.
  unfold upperAscii, isLower.
  destruct ((97 <=? nat_of_ascii a)%nat && (nat_of_ascii a <=? 122)%nat) eqn:E; [|done].
  apply andb_true_iff in E as [E1 E2].
  apply Nat.leb_le in E1. apply Nat.leb_le in E2.
  rewrite nat_ascii_embedding by lia.
  apply andb_false_iff. left. apply Nat.leb_gt. lia.
Qed.

Lemma toUpperCase_no_lower (s : string) : allChars (fun a => negb (isLower a)) (toUpperCase s) = true.
Proof.
  induction s as [|a s IH]; cbn; [done|]. by rewrite upperAscii_not_lower.
Qed.

Lemma edited_snoc (edits : list (JoinQuizPage.field * string)) (e : JoinQuizPage.field * string) :
  JoinQuizPage.edited (edits ++ [e])
  = JoinQuizPage.handleChange (JoinQuizPage.edited edits) (fst e) (snd e).
Proof. unfold JoinQuizPage.edited. by rewrite fold_left_app. Qed.

(** The room code that the join form holds, and that [handleJoinQuiz]
    looks up, never has a lower-case letter: it is upper-cased as typed. *)
Lemma join_form_code_upper (edits : list (JoinQuizPage.field * string)) :
  allChars (fun a => negb (isLower a)) (JoinQuizPage.roomCode (JoinQuizPage.edited edits)) = true.
Proof.
  induction edits as [|[target value] edits IH] using rev_ind; [done|].
  rewrite edited_snoc. destruct target; cbn; [apply toUpperCase_no_lower | exact IH].
Qed.

(** C8.  The draw one half, whose only fraction digit in radix 36 is 18,
    prints as ["0.i"]; the code made from it is ["I"], one character
    long and not five. *)
Theorem room_code_of_one_half :
  fractionDigits 11 1 2 = [18%nat] ∧
  toString36 [18%nat] = "0.i" ∧
  generateRoomCode [18%nat] = "I" ∧
  String.length (generateRoomCode [18%nat]) = 1%nat.
Proof. vm_compute. done. Qed.

(** ** The order of the status *)

Lemma rankOf_insert (code code' : string) (room : Room) (st : gmap string Room) :
  rankOf code (<[code' := room]> st)
  = if decide (code' = code) then rank (status room) else rankOf code st.
Proof.
  unfold rankOf, statusOf. rewrite lookup_insert. by case_decide.
Qed.

Lemma handleStartQuiz_store (c : App) (w : World) :
  store (fst (handleStartQuiz c w)) =
    match store w !! roomCode c with
    | Some room => <[roomCode c := with_status InProgress room]> (store w)
    | None => store w
    end.
Proof.
  unfold handleStartQuiz. run_handler.
  by destruct (store w !! roomCode c).
Qed.

Lemma handleAnswerSubmit_store (c : App) (answer : string) (w : World) :
  store (fst (handleAnswerSubmit c answer w)) = store w ∨
  ∃ room room',
    store w !! roomCode c = Some room ∧
    store (fst (handleAnswerSubmit c answer w)) = <[roomCode c := room']> (store w) ∧
    (status room' = status room ∨ status room' = Finished).
Proof.
  destruct (quizData c) as [qd|] eqn:Hqd;
    [|left; unfold handleAnswerSubmit; by rewrite Hqd].
  destruct (questions qd !! currentQuestionIndex c) as [q|] eqn:Hq;
    [|left; unfold handleAnswerSubmit; by rewrite Hqd, Hq].
  destruct (store w !! roomCode c) as [room|] eqn:Hroom.
  - right. destruct (handleAnswerSubmit_cases c answer w qd q room Hqd Hq Hroom)
      as (_ & Hst & _).
    exists room. eexists. split; [done|]. split; [exact Hst|].
    destruct (isLast c qd); [right|left]; done.
  - left. unfold handleAnswerSubmit, submitWrite. rewrite Hqd, Hq. run_handler.
    by rewrite Hroom.
Qed.

(** An answer never moves the status of any room backwards. *)
Lemma submit_rank (c : App) (answer : string) (code : string) (st : gmap string Room) :
  (rankOf code st ≤ rankOf code (applyOp (SubmitAnswer c answer) st))%nat.
Proof.
  cbn. destruct (handleAnswerSubmit_store c answer {| client := c; store := st |})
    as [->|(room & room' & Hroom & -> & Hst)]; [done|]. cbn in *.
  rewrite rankOf_insert. case_decide as Hc; [|done]. subst code.
  unfold rankOf, statusOf. rewrite Hroom. cbn.
  destruct Hst as [->| ->]; [done|]. destruct (status room); cbn; lia.
Qed.

(** A start moves the status of a room backwards only if the room is
    Finished. *)
Lemma start_rank (c : App) (code : string) (st : gmap string Room) :
  (roomCode c = code → statusOf code st ≠ Some Finished) →
  (rankOf code st ≤ rankOf code (applyOp (StartQuiz c) st))%nat.
Proof.
  intros Hguard. cbn. rewrite handleStartQuiz_store. cbn.
  destruct (st !! roomCode c) as [room|] eqn:Hroom; [|done].
  rewrite rankOf_insert. case_decide as Hc; [|done]. subst code.
  specialize (Hguard eq_refl). unfold rankOf, statusOf in *. rewrite Hroom in *. cbn in *.
  destruct (status room); cbn; try lia. done.
Qed.

Lemma applyOps_rank (code : string) (ops : list Op) (st : gmap string Room) :
  startsBeforeFinish code ops st →
  (rankOf code st ≤ rankOf code (applyOps ops st))%nat.
Proof.
  revert st. induction ops as [|o ops IH]; intros st; cbn; [done|].
  intros [Ho Hops]. etrans; [|apply IH, Hops].
  destruct o as [c|c answer]; [by apply start_rank | apply submit_rank].
Qed.

Lemma startsBeforeFinish_app (code : string) (ops1 ops2 : list Op) (st : gmap string Room) :
  startsBeforeFinish code (ops1 ++ ops2) st →
  startsBeforeFinish code ops2 (applyOps ops1 st).
Proof.
  revert st. induction ops1 as [|o ops1 IH]; intros st; cbn; [done|].
  intros [_ H]. by apply IH.
Qed.

(** C2 (as amended).  Along a sequence of starts and answers in which no
    start is applied to the room once it is Finished, the status of the
    room never moves backwards in the order Lobby, InProgress, Finished:
    it is at least as far after the whole sequence as after any part of
    it.  Answers are under no condition. *)
Theorem status_never_moves_backwards (code : string) (before rest : list Op)
    (st : gmap string Room) :
  startsBeforeFinish code (before ++ rest) st →
  (rankOf code (applyOps before st) ≤ rankOf code (applyOps (before ++ rest) st))%nat.
Proof.
  intros H. unfold applyOps at 2. rewrite fold_left_app.
  apply applyOps_rank, startsBeforeFinish_app, H.
Qed.

Lemma status_never_moves_backwards_witness :
  (rankOf "AB12Z" (applyOps [StartQuiz (client adaInLobby)] (store boJoined))
   ≤ rankOf "AB12Z" (applyOps playedThrough (store boJoined)))%nat ∧
  statusOf "AB12Z" (applyOps [StartQuiz (client adaInLobby)] (store boJoined)) = Some InProgress ∧
  statusOf "AB12Z" (applyOps playedThrough (store boJoined)) = Some Finished.
Proof.
  split; [|vm_compute; done].
  apply (status_never_moves_backwards "AB12Z" [StartQuiz (client adaInLobby)]
           [SubmitAnswer (client boOnQuiz) "The Moon"; SubmitAnswer (client boOnLast) "Pacific"]
           (store boJoined)).
  vm_compute. repeat split. intros _. discriminate.
Defined.

(** C2 (as stated) fails: Ada starts the quiz and Bo answers both
    questions, which leaves the room Finished; a further start by Ada,
    whose client still shows the lobby, puts the room back to InProgress. *)
Lemma start_reopens_finished_room :
  statusOf "AB12Z" (applyOps playedThrough (store boJoined)) = Some Finished ∧
  statusOf "AB12Z" (applyOps (playedThrough ++ [StartQuiz (client adaInLobby)]) (store boJoined))
    = Some InProgress ∧
  page (client adaInLobby) = PLobby.
Proof. vm_compute. done. Qed.

(** The same run as events of the two clients: every event is one that
    the client's screen offers, and the last start finds the room
    Finished. *)
Lemma start_reopens_finished_room_events :
  (sys ← steps playedThroughEvents (initialSystem ["adaId"; "boId"]);
   Some (statusOf "AB12Z" (docs sys))) = Some (Some Finished) ∧
  (sys ← steps (playedThroughEvents ++ [(0%nat, Start)]) (initialSystem ["adaId"; "boId"]);
   Some (statusOf "AB12Z" (docs sys))) = Some (Some InProgress).
Proof. vm_compute. done. Qed.

(** ** One answer per question *)

(** C9 (as stated) fails.  The countdown reaches zero on the first
    question and the sentinel is submitted; the index is still 0 and the
    Submit Answer button is still enabled while that write is under way,
    so a click submits a second answer for index 0.  The stored answers
    of the player then have two entries for index 0, and the two resumed
    calls move the index on by two. *)
Lemma second_submission_during_write :
  QuizPage.tick lastSecond = ({| QuizPage.timeLeft := 0; QuizPage.interval := false |}, true) ∧
  currentQuestionIndex (client timedOut) = 0%nat ∧
  page (client timedOut) = PQuiz ∧
  selectedAnswer (client timedOut) = Some "The wind" ∧
  indices <$> storedAnswers "AB12Z" "boId" (store timedOut) = Some [0%nat] ∧
  indices <$> storedAnswers "AB12Z" "boId" (store bothResumed) = Some [0%nat; 0%nat] ∧
  answer <$> userAnswers (client bothResumed) = [QuizPage.noAnswer; "The wind"] ∧
  currentQuestionIndex (client bothResumed) = 2%nat.
Proof. vm_compute. done. Qed.

(** *** The invariants are kept by every event *)

Lemma grows_refl st : grows st st.
Proof. by intros ?. Qed.

Lemma grows_insert code room st : grows st (<[code := room]> st).
Proof.
  intros k Hk. rewrite lookup_insert. by case_decide.
Qed.

Lemma appInv_grows st st' c : grows st st' → appInv st c → appInv st' c.
Proof.
  intros Hg [Hnd Hq]. split; [done|]. intros Hp. destruct (Hq Hp). auto.
Qed.

Lemma storeInv_insert code room st :
  storeInv st →
  (∀ uid p l, players room !! uid = Some p → answers p = Some l → NoDup (indices l)) →
  storeInv (<[code := room]> st).
Proof.
  intros Hst Hroom code' room' uid p l. rewrite lookup_insert.
  case_decide; [intros [= <-]; apply Hroom | apply Hst].
Qed.

Lemma keeps_setPage (p : Page) : p ≠ PQuiz → keeps (fun _ => True) (fun _ => setPage p).
Proof.
  intros Hp w _ [Hnd _] Hst. unfold after, run. cbn.
  split; [apply grows_refl|]. split; [done|]. split; [done|]. done.
Qed.

Lemma keeps_setUserName (v : string) : keeps (fun _ => True) (fun _ => setUserName v).
Proof.
  intros w _ Hinv Hst. unfold after, run. cbn.
  split; [apply grows_refl|]. split; [done|]. done.
Qed.

Lemma keeps_setSelectedAnswer (a : option string) :
  keeps (fun _ => True) (fun _ => setSelectedAnswer a).
Proof.
  intros w _ Hinv Hst. unfold after, run. cbn.
  split; [apply grows_refl|]. split; [done|]. done.
Qed.

Lemma keeps_handleReturnHome : keeps (fun _ => True) (fun _ => handleReturnHome).
Proof.
  intros w _ [Hnd _] Hst. unfold after, run, handleReturnHome. run_handler.
  split; [apply grows_refl|]. split; [done|]. split; [done|]. done.
Qed.

Lemma keeps_handleStartQuiz : keeps (fun _ => True) handleStartQuiz.
Proof.
  intros w _ Hinv Hst. unfold after, run, handleStartQuiz. run_handler.
  destruct (store w !! roomCode (client w)) as [room|] eqn:Hroom; cbn.
  - split; [apply grows_insert|]. split.
    + apply storeInv_insert; [done|]. intros uid p l. cbn. eapply Hst, Hroom.
    + eapply appInv_grows; [apply grows_insert|]. exact Hinv.
  - split; [apply grows_refl|]. split; [done|]. exact Hinv.
Qed.

Lemma keeps_handleCreateQuiz ds response now settings :
  keeps (fun c => page c ≠ PQuiz) (fun c => handleCreateQuiz c ds response now settings).
Proof.
  intros w Hp [Hnd Hq] Hst. unfold after, run. rewrite handleCreateQuiz_cases.
  assert (Hrefused : grows (store w) (store (refused w)) ∧ storeInv (store (refused w)) ∧
                     appInv (store (refused w)) (client (refused w))).
  { split; [apply grows_refl|]. split; [done|]. split; [done|]. cbn. done. }
  destruct response as [| | |[|q items]]; try exact Hrefused. cbn.
  split; [apply grows_insert|]. split.
  - apply storeInv_insert; [done|]. intros uid p l. cbn.
    rewrite lookup_singleton. case_decide; [|done]. intros [= <-] [= <-]. constructor.
  - split; [done|]. done.
Qed.

Lemma keeps_handleJoinQuiz data :
  keeps (fun c => page c ≠ PQuiz) (fun c => handleJoinQuiz c data).
Proof.
  intros w Hp [Hnd Hq] Hst. unfold after, run, handleJoinQuiz. run_handler.
  destruct (store w !! JoinQuizPage.roomCode data) as [room|] eqn:Hroom; cbn.
  - destruct (decide (status room ≠ Lobby)); cbn.
    + split; [apply grows_refl|]. split; [done|]. split; [done|]. done.
    + rewrite Hroom. cbn. split; [apply grows_insert|]. split.
      * apply storeInv_insert; [done|]. intros uid p l. cbn. rewrite lookup_insert.
        case_decide; [intros [= <-] [= <-]; constructor | eapply Hst, Hroom].
      * split; [done|]. done.
  - split; [apply grows_refl|]. split; [done|]. split; [done|]. done.
Qed.

Lemma onSnapshot_inv (w : World) :
  appInv (store w) (client w) →
  let w' := fst (onSnapshot (client w) (store w !! roomCode (client w)) w) in
  store w' = store w ∧ appInv (store w') (client w').
Proof.
  intros Hinv. unfold onSnapshot.
  destruct (store w !! roomCode (client w)) as [data|] eqn:Hdata; run_handler.
  - destruct (decide (status data = InProgress ∧ page (client w) ≠ PQuiz)) as [[Hs Hp]|Hno]; cbn.
    + rewrite decide_False by (rewrite Hs; intros [? _]; done). cbn.
      split; [done|]. split; [constructor|]. intros _. split; [|constructor].
      exact (mk_is_Some _ _ Hdata).
    + destruct Hinv as [Hnd Hq].
      destruct (decide (status data = Finished ∧ quizFinished (client w) = false)); cbn.
      * split; [done|]. split; [done|]. done.
      * split; [done|]. split; [done|]. exact Hq.
  - destruct Hinv as [Hnd Hq]. split; [done|]. split; [done|]. done.
Qed.

Lemma indices_app l a : indices (l ++ [a]) = indices l ++ [questionIndex a].
Proof. unfold indices. by rewrite fmap_app. Qed.

Lemma keeps_handleAnswerSubmit answer :
  keeps (fun c => page c = PQuiz) (fun c => handleAnswerSubmit c answer).
Proof.
  intros w Hp Hinv Hst. unfold after, run.
  destruct (quizData (client w)) as [qd|] eqn:Hqd;
    [|unfold handleAnswerSubmit; rewrite Hqd; cbn;
      split; [apply grows_refl|]; split; [done|]; exact Hinv].
  destruct (questions qd !! currentQuestionIndex (client w)) as [q|] eqn:Hq;
    [|unfold handleAnswerSubmit; rewrite Hqd, Hq; cbn;
      split; [apply grows_refl|]; split; [done|]; exact Hinv].
  destruct Hinv as [Hnd Hquiz]. destruct (Hquiz Hp) as [[room Hroom] Hlt].
  destruct (handleAnswerSubmit_cases (client w) answer w qd q room Hqd Hq Hroom)
    as (_ & Hstore & Hua & Hidx & Hpage & Hcode & _).
  assert (Hnd' : NoDup (indices (updatedAnswers (client w) q answer))).
  { unfold updatedAnswers. rewrite indices_app. apply NoDup_app. split; [done|]. split.
    - intros k Hk Hk'. apply list_elem_of_singleton in Hk'. subst k.
      rewrite Forall_forall in Hlt. specialize (Hlt _ Hk). cbn in Hlt. lia.
    - apply NoDup_singleton. }
  rewrite Hstore. split; [apply grows_insert|]. split.
  - apply storeInv_insert; [done|]. intros uid p l.
    assert (Hp' : players (if isLast (client w) qd
                           then with_status Finished (written (client w) qd q answer room)
                           else written (client w) qd q answer room)
                  = players (written (client w) qd q answer room))
      by by destruct (isLast (client w) qd).
    rewrite Hp'. unfold written. rewrite apply_fields_answers_score, lookup_insert.
    case_decide; [intros [= <-] [= <-]; exact Hnd' | eapply Hst, Hroom].
  - split; [by rewrite Hua|]. rewrite Hpage, Hidx, Hua, Hcode.
    destruct (isLast (client w) qd); [done|]. intros _. split.
    + rewrite lookup_insert_eq. done.
    + unfold updatedAnswers. rewrite indices_app. apply Forall_app. split.
      * eapply Forall_impl; [exact Hlt|]. cbn. lia.
      * constructor; [cbn; lia | constructor].
Qed.

Lemma sessionInv_grows st st' s : grows st st' → sessionInv st s → sessionInv st' s.
Proof. intros Hg [Ha Hi]. split; [by eapply appInv_grows|done]. Qed.

Lemma sessionInv_rendered st c q : appInv st c → sessionInv st (rendered c q).
Proof.
  intros Ha. split; [done|]. cbn. intros q'. case_decide as Hp; [|done].
  intros [= <-]. unfold QuizPage.effect. intros Hi. split; [by destruct Hp|].
  destruct (quizData c); [|done]. destruct (QuizPage.currentQuestion c); done.
Qed.

Lemma systemInv_insert (sys : System) (st' : gmap string Room) (i : nat) (s' : Session) :
  systemInv sys → grows (docs sys) st' → storeInv st' → sessionInv st' s' →
  systemInv {| docs := st'; sessions := <[i := s']> (sessions sys) |}.
Proof.
  intros [Hst Hss] Hg Hst' Hs'. split; [done|]. cbn. intros j s Hj.
  destruct (decide (i = j)) as [->|Hne].
  - apply list_lookup_insert_Some in Hj as [(_ & <- & _)|[? _]]; done.
  - rewrite list_lookup_insert_ne in Hj by done.
    eapply sessionInv_grows; [exact Hg|]. by eapply Hss.
Qed.

Lemma handle_inv (h : App → M unit) (i : nat) (s : Session) (q : option QuizPage.state)
    (sys : System) :
  systemInv sys →
  (let w := {| client := app s; store := docs sys |} in
   grows (store w) (store (after h w)) ∧
   storeInv (store (after h w)) ∧
   appInv (store (after h w)) (client (after h w))) →
  systemInv (handle h i s q sys).
Proof.
  intros Hsys (Hg & Hst & Ha). unfold handle.
  apply systemInv_insert; [done|exact Hg|exact Hst|].
  apply sessionInv_rendered, Ha.
Qed.

Lemma handle_keeps (P : App → Prop) (h : App → M unit) (i : nat) (s : Session)
    (q : option QuizPage.state) (sys : System) :
  keeps P h → systemInv sys → sessions sys !! i = Some s → P (app s) →
  systemInv (handle h i s q sys).
Proof.
  intros Hk Hsys Hs HP. apply handle_inv; [done|].
  destruct Hsys as [Hst Hss]. destruct (Hss i s Hs) as [Ha _].
  apply (Hk {| client := app s; store := docs sys |}); done.
Qed.

Lemma keeps_handleButtonClick : keeps (fun c => page c = PQuiz) QuizPage.handleButtonClick.
Proof.
  intros w Hp Ha Hst. unfold after, run, QuizPage.handleButtonClick.
  destruct (selectedAnswer (client w)) as [a|].
  - by apply (keeps_handleAnswerSubmit a).
  - cbn. split; [apply grows_refl|]. done.
Qed.

Lemma step_inv (i : nat) (e : Event) (sys sys' : System) :
  systemInv sys → step i e sys = Some sys' → systemInv sys'.
Proof.
  intros Hsys. unfold step. destruct (sessions sys !! i) as [s|] eqn:Hs; [|done]. cbn.
  destruct (enabled e s) eqn:Hen; [|done]. intros [= <-].
  unfold enabled in Hen. apply andb_true_iff in Hen as [_ Hen].
  assert (Hnq : ∀ p, page (app s) = p → p ≠ PQuiz → page (app s) ≠ PQuiz) by congruence.
  destruct e as [p|v|ds response now form|edits| | |o| | |].
  - apply andb_true_iff in Hen as [_ Hp]. apply bool_decide_eq_true in Hp.
    eapply (handle_keeps (fun _ => True)); [apply (keeps_setPage p)|done|done|exact I].
    destruct Hp as [-> | ->]; done.
  - eapply (handle_keeps (fun _ => True)); [apply (keeps_setUserName v)|done|done|exact I].
  - apply andb_true_iff in Hen as [Hp _]. apply bool_decide_eq_true in Hp.
    destruct (CreateQuizPage.handleSubmit (userName (app s)) form) as [settings|];
      [|exact Hsys].
    eapply handle_keeps;
      [apply (keeps_handleCreateQuiz ds response now settings)|done|done|].
    by eapply Hnq.
  - apply andb_true_iff in Hen as [Hp _]. apply bool_decide_eq_true in Hp.
    destruct (JoinQuizPage.handleSubmit (JoinQuizPage.edited edits)) as [data|];
      [|exact Hsys].
    eapply handle_keeps; [apply (keeps_handleJoinQuiz data)|done|done|].
    by eapply Hnq.
  - eapply (handle_keeps (fun _ => True)); [apply keeps_handleStartQuiz|done|done|exact I].
  - apply handle_inv; [done|]. cbn zeta.
    destruct Hsys as [Hst Hss]. destruct (Hss i s Hs) as [Ha _].
    destruct (onSnapshot_inv {| client := app s; store := docs sys |} Ha) as [Hstore Ha'].
    unfold after, run. cbn in *. rewrite Hstore.
    split; [apply grows_refl|]. split; [done|]. by rewrite Hstore in Ha'.
  - destruct (decide (selectedAnswer (app s) = Some o)); [exact Hsys|].
    eapply (handle_keeps (fun _ => True));
      [apply (keeps_setSelectedAnswer (Some o))|done|done|exact I].
  - apply andb_true_iff in Hen as [Hen _]. apply andb_true_iff in Hen as [Hp _].
    apply bool_decide_eq_true in Hp.
    eapply handle_keeps; [apply keeps_handleButtonClick|done|done|exact Hp].
  - destruct (quizPage s) as [q0|] eqn:Hq0; [|done].
    destruct Hsys as [Hst Hss]. destruct (Hss i s Hs) as [Ha Hint].
    destruct (Hint q0 Hq0 Hen) as [Hp _].
    unfold QuizPage.tick. rewrite Hen.
    destruct (QuizPage.timeLeft q0 <=? 1).
    + eapply handle_keeps;
        [apply (keeps_handleAnswerSubmit QuizPage.noAnswer)|by split|done|exact Hp].
    + apply (systemInv_insert sys (docs sys) i); [by split|apply grows_refl|done|].
      split; [done|]. intros q' _ _. by apply (Hint q0 Hq0).
  - eapply (handle_keeps (fun _ => True)); [apply keeps_handleReturnHome|done|done|exact I].
Qed.

Lemma initial_inv (uids : list string) : systemInv (initialSystem uids).
Proof.
  split.
  - intros code room uid p l. cbn. by rewrite lookup_empty.
  - intros i s. cbn. rewrite list_lookup_fmap.
    destruct (uids !! i); [|done]. intros [= <-].
    split; [|done]. split; [constructor|done].
Qed.

Lemma reachable_inv (uids : list string) (sys : System) :
  reachable uids sys → systemInv sys.
Proof.
  induction 1 as [|sys i e sys' _ IH Hstep]; [apply initial_inv|].
  by eapply step_inv.
Qed.

Lemma steps_reachable (uids : list string) (es : list (nat * Event)) (sys sys' : System) :
  reachable uids sys → steps es sys = Some sys' → reachable uids sys'.
Proof.
  revert sys. induction es as [|[i e] es IH]; intros sys Hr; cbn.
  - by intros [= <-].
  - destruct (step i e sys) as [sys1|] eqn:Hstep; [|done]. cbn.
    apply IH. by eapply reachable_step.
Qed.

(** What the firing of the countdown at its last second does. *)
Lemma tick_at_last_second (sys : System) (i : nat) (s : Session) (t : QuizPage.state) :
  systemInv sys →
  sessions sys !! i = Some s →
  quizPage s = Some t →
  enabled Tick s = true →
  QuizPage.timeLeft t ≤ 1 →
  ∃ sys' s' q,
    step i Tick sys = Some sys' ∧
    sessions sys' !! i = Some s' ∧
    QuizPage.currentQuestion (app s) = Some q ∧
    userAnswers (app s') =
      userAnswers (app s) ++
        [{| questionIndex := currentQuestionIndex (app s);
            answer := QuizPage.noAnswer;
            isCorrect := bool_decide (QuizPage.noAnswer = correctAnswer q) |}] ∧
    storedAnswers (roomCode (app s)) (userId (app s)) (docs sys') = Some (userAnswers (app s')).
Proof.
  intros [Hst Hss] Hs Ht Hen Hleft. destruct (Hss i s Hs) as [[Hnd Hquiz] Hint].
  assert (Hen' := Hen). unfold enabled in Hen'. rewrite Ht in Hen'.
  apply andb_true_iff in Hen' as [_ Hi].
  destruct (Hint t Ht Hi) as [Hp [q Hq]]. destruct (Hquiz Hp) as [[room Hroom] _].
  unfold QuizPage.currentQuestion in Hq.
  destruct (quizData (app s)) as [qd|] eqn:Hqd; [|done]. cbn in Hq.
  pose (w := {| client := app s; store := docs sys |}).
  destruct (handleAnswerSubmit_cases (app s) QuizPage.noAnswer w qd q room Hqd Hq Hroom)
    as (_ & _ & Hua & _).
  destruct (handleAnswerSubmit_entry (app s) QuizPage.noAnswer w qd q room Hqd Hq Hroom)
    as (room' & Hroom' & Hentry).
  eexists _, _, q. split; [|split; [|split; [|split]]].
  - unfold step. rewrite Hs. cbn. rewrite Hen, Ht. unfold QuizPage.tick. rewrite Hi.
    rewrite (proj2 (Z.leb_le _ _) Hleft). reflexivity.
  - cbn. apply list_lookup_insert_eq. by eapply lookup_lt_Some.
  - unfold QuizPage.currentQuestion. by rewrite Hqd.
  - cbn. fold w. rewrite Hua. unfold updatedAnswers, newAnswer.
    by rewrite eqb_bool_decide.
  - cbn. fold w. unfold storedAnswers. rewrite Hroom'. cbn. rewrite Hentry. cbn.
    by rewrite Hua.
Qed.

(** C9 (as amended).  Where every submission runs to its end before the
    client takes its next event: the answers that a client holds, and the
    answers stored for any player, have at most one entry per question
    index; and when the countdown fires at its last second the sentinel is
    submitted once, as one more answer, for the current index, and stored. *)
Theorem one_answer_per_index (uids : list string) (sys : System) :
  reachable uids sys →
  (∀ i s, sessions sys !! i = Some s → NoDup (indices (userAnswers (app s)))) ∧
  (∀ code room uid p l,
     docs sys !! code = Some room → players room !! uid = Some p → answers p = Some l →
     NoDup (indices l)) ∧
  (∀ i s t,
     sessions sys !! i = Some s →
     quizPage s = Some t →
     enabled Tick s = true →
     QuizPage.timeLeft t ≤ 1 →
     ∃ sys' s' q,
       step i Tick sys = Some sys' ∧
       sessions sys' !! i = Some s' ∧
       QuizPage.currentQuestion (app s) = Some q ∧
       userAnswers (app s') =
         userAnswers (app s) ++
           [{| questionIndex := currentQuestionIndex (app s);
               answer := QuizPage.noAnswer;
               isCorrect := bool_decide (QuizPage.noAnswer = correctAnswer q) |}] ∧
       storedAnswers (roomCode (app s)) (userId (app s)) (docs sys') = Some (userAnswers (app s'))).
Proof.
  intros Hr. assert (Hsys := reachable_inv uids sys Hr).
  split; [|split].
  - intros i s Hs. destruct Hsys as [_ Hss]. by destruct (Hss i s Hs) as [[Hnd _] _].
  - by destruct Hsys as [Hst _].
  - intros i s t. by apply tick_at_last_second.
Qed.

Lemma countdownEvents_run :
  steps countdownEvents (initialSystem ["adaId"; "boId"]) = Some atLastSecond.
Proof. vm_compute. reflexivity. Qed.

Lemma one_answer_per_index_witness :
  NoDup (indices (userAnswers (app (default {| app := bo; quizPage := None |}
                                      (sessions atLastSecond !! 1%nat))))) ∧
  ∃ sys' s' q,
    step 1 Tick atLastSecond = Some sys' ∧
    sessions sys' !! 1%nat = Some s' ∧
    q = tides ∧
    userAnswers (app s') =
      [{| questionIndex := 0; answer := "No Answer"; isCorrect := false |}] ∧
    storedAnswers "AB12Z" "boId" (docs sys') = Some (userAnswers (app s')).
Proof.
  destruct (one_answer_per_index ["adaId"; "boId"] atLastSecond) as (Hlocal & _ & Htick).
  { eapply steps_reachable; [apply reachable_initial | exact countdownEvents_run]. }
  split.
  - apply (Hlocal 1%nat). vm_compute. reflexivity.
  - destruct (Htick 1%nat (default {| app := bo; quizPage := None |}
                             (sessions atLastSecond !! 1%nat)) lastSecond)
      as (sys' & s' & q & Hstep & Hs' & Hq & Hua & Hstored);
      [vm_compute; reflexivity | vm_compute; reflexivity | vm_compute; reflexivity
      | vm_compute; discriminate |].
    vm_compute in Hq. injection Hq as <-.
    eexists sys', s', _. split; [exact Hstep|]. split; [exact Hs'|].
    split; [reflexivity|]. split; [|exact Hstored].
    rewrite Hua. vm_compute. reflexivity.
Defined.

(** * Further properties *)

(** ** Relations that every handler respects *)

Section Respects.
Context (R : World → World → Prop).
Hypothesis R_refl : ∀ w, R w w.
Hypothesis R_trans : ∀ w1 w2 w3, R w1 w2 → R w2 w3 → R w1 w3.

Lemma respects_ret {A} (a : A) : respects R (mret a).
Proof. intros w. apply R_refl. Qed.

Lemma respects_throw {A} (e : string) : respects R (@throw A e).
Proof. intros w. apply R_refl. Qed.

Lemma respects_getDoc (code : string) : respects R (getDoc code).
Proof. intros w. apply R_refl. Qed.

Lemma respects_bind {A B} (m : M A) (f : A → M B) :
  respects R m → (∀ a, respects R (f a)) → respects R (m ≫= f).
Proof.
  intros Hm Hf w. unfold mbind, M_bind. specialize (Hm w).
  destruct (m w) as [w' [a|e]]; [|done].
  eapply R_trans; [exact Hm | apply Hf].
Qed.

Lemma respects_tryCatch {A} (body : M A) (handler : string → M A) :
  respects R body → (∀ e, respects R (handler e)) → respects R (tryCatch body handler).
Proof.
  intros Hm Hf w. unfold tryCatch. specialize (Hm w).
  destruct (body w) as [w' [a|e]]; [done|].
  eapply R_trans; [exact Hm | apply Hf].
Qed.

Lemma respects_updApp (f : App → App) :
  (∀ w, R w {| client := f (client w); store := store w |}) → respects R (updApp f).
Proof. intros Hf w. apply Hf. Qed.

Lemma respects_setDoc (code : string) (room : Room) :
  (∀ w, R w {| client := client w; store := <[code := room]> (store w) |}) →
  respects R (setDoc code room).
Proof. intros Hf w. apply Hf. Qed.

Lemma respects_updateDoc (code : string) (fields : list FieldUpdate) :
  (∀ w room, store w !! code = Some room →
     R w {| client := client w; store := <[code := apply_fields fields room]> (store w) |}) →
  respects R (updateDoc code fields).
Proof.
  intros Hf w. unfold updateDoc.
  destruct (store w !! code) as [room|] eqn:Hroom; [by apply Hf | apply R_refl].
Qed.
End Respects.

(** Splits a handler into its calls; [leaf] settles a setter or a write. *)
Ltac respects_by refl trans leaf :=
  repeat first
    [ apply (respects_bind _ trans); [|intros ?]
    | apply (respects_tryCatch _ trans); [|intros ?]
    | apply (respects_getDoc _ refl)
    | apply (respects_ret _ refl)
    | apply (respects_throw _ refl)
    | leaf
    | progress unfold setPage, setIsLoading, setError, setUserName, setIsHost,
        setRoomCode, setQuizData, setCurrentQuestionIndex, setSelectedAnswer,
        setUserAnswers, setQuizFinished
    | match goal with |- respects _ (match ?x with _ => _ end) => destruct x end
    | match goal with |- respects _ (if ?x then _ else _) => destruct x end ].

(** ** Only creation writes a room's fixed fields *)

Lemma extends_refl (room : Room) : extends room room.
Proof. by repeat split. Qed.

Lemma extends_trans (r1 r2 r3 : Room) : extends r1 r2 → extends r2 r3 → extends r1 r3.
Proof.
  intros (? & ? & ? & ? & ? & ? & H12) (? & ? & ? & ? & ? & ? & H23).
  repeat split; try congruence. auto.
Qed.

Lemma extends_apply_field (u : FieldUpdate) (room : Room) : extends room (apply_field u room).
Proof.
  destruct u as [s|uid p|uid l|uid z]; repeat split; cbn; try done;
    intros uid' H; rewrite lookup_insert; case_decide; eauto.
Qed.

Lemma extends_apply_fields (us : list FieldUpdate) (room : Room) :
  extends room (apply_fields us room).
Proof.
  unfold apply_fields. revert room. induction us as [|u us IH]; intros room; cbn.
  - apply extends_refl.
  - eapply extends_trans; [apply extends_apply_field | apply IH].
Qed.

Lemma storeExtends_refl (st : gmap string Room) : storeExtends st st.
Proof. intros code. destruct (st !! code); [apply extends_refl | done]. Qed.

Lemma storeExtends_trans (st1 st2 st3 : gmap string Room) :
  storeExtends st1 st2 → storeExtends st2 st3 → storeExtends st1 st3.
Proof.
  intros H12 H23 code. specialize (H12 code). specialize (H23 code).
  destruct (st1 !! code), (st2 !! code), (st3 !! code); try done.
  by eapply extends_trans.
Qed.

Lemma extending_refl (w : World) : storeExtends (store w) (store w).
Proof. apply storeExtends_refl. Qed.

Lemma extending_trans (w1 w2 w3 : World) :
  storeExtends (store w1) (store w2) → storeExtends (store w2) (store w3) →
  storeExtends (store w1) (store w3).
Proof. apply storeExtends_trans. Qed.

Lemma extending_updateDoc (code : string) (fields : list FieldUpdate) :
  extending (updateDoc code fields).
Proof.
  apply respects_updateDoc; [apply extending_refl|]. intros w room Hroom code'. cbn.
  rewrite lookup_insert. case_decide as Hc.
  - subst code'. rewrite Hroom. apply extends_apply_fields.
  - destruct (store w !! code'); [apply extends_refl | done].
Qed.

Ltac extending :=
  unfold extending;
  respects_by extending_refl extending_trans
    ltac:(first [ apply extending_updateDoc
                | apply respects_updApp; intros ?; cbn; apply storeExtends_refl ]).

Lemma extending_handleJoinQuiz (c : App) (data : JoinQuizPage.data) :
  extending (handleJoinQuiz c data).
Proof. unfold handleJoinQuiz. extending. Qed.

Lemma extending_handleStartQuiz (c : App) : extending (handleStartQuiz c).
Proof. unfold handleStartQuiz. extending. Qed.

Lemma extending_handleAnswerSubmit (c : App) (answer : string) :
  extending (handleAnswerSubmit c answer).
Proof. unfold handleAnswerSubmit, submitWrite, submitResume. extending. Qed.

Lemma extending_onSnapshot (c : App) (docSnap : option Room) : extending (onSnapshot c docSnap).
Proof. unfold onSnapshot. extending. Qed.

Lemma extending_handleReturnHome : extending handleReturnHome.
Proof. unfold handleReturnHome. extending. Qed.

(** X1. No handler but [handleCreateQuiz] adds or removes a room, changes
    the topic, difficulty, timer, host, creation time or questions of a
    stored room, or removes a player from it, whatever the state it is
    called in and whether it returns or throws. *)
Theorem only_creation_writes_fixed_fields (c : App) (data : JoinQuizPage.data)
    (answer : string) (docSnap : option Room) :
  extending (handleJoinQuiz c data) ∧
  extending (handleStartQuiz c) ∧
  extending (handleAnswerSubmit c answer) ∧
  extending (onSnapshot c docSnap) ∧
  extending handleReturnHome.
Proof.
  repeat split.
  - apply extending_handleJoinQuiz.
  - apply extending_handleStartQuiz.
  - apply extending_handleAnswerSubmit.
  - apply extending_onSnapshot.
  - apply extending_handleReturnHome.
Qed.

(** ** Good rooms *)

Lemma roomGood_apply_field (u : FieldUpdate) (room : Room) :
  fieldGood u → roomGood room → roomGood (apply_field u room).
Proof.
  intros Hu [Hhost Hscores]. destruct u as [s|uid p|uid l|uid z]; cbn in *.
  - by split.
  - split; cbn.
    + rewrite lookup_insert. case_decide; eauto.
    + intros uid' p' z'. rewrite lookup_insert. case_decide; [|by eauto].
      intros [= <-]. apply Hu.
  - split; cbn.
    + rewrite lookup_insert. case_decide; eauto.
    + intros uid' p' z'. rewrite lookup_insert. case_decide; [|by eauto].
      intros [= <-]. cbn. destruct (players room !! uid) eqn:E; cbn; [by eauto|done].
  - split; cbn.
    + rewrite lookup_insert. case_decide; eauto.
    + intros uid' p' z'. rewrite lookup_insert. case_decide; [|by eauto].
      intros [= <-]. cbn. by intros [= <-].
Qed.

Lemma roomGood_apply_fields (us : list FieldUpdate) (room : Room) :
  Forall fieldGood us → roomGood room → roomGood (apply_fields us room).
Proof.
  unfold apply_fields. intros Hus. revert room.
  induction Hus as [|u us Hu _ IH]; intros room Hroom; cbn; [done|].
  by apply IH, roomGood_apply_field.
Qed.

Lemma scoreOk_0 : scoreOk 0.
Proof. by exists 0%nat. Qed.

Lemma scoreOk_award (z : Z) (b : bool) : scoreOk z → scoreOk (z + scoreIncrement b).
Proof.
  intros [n ->]. destruct b; cbn.
  - exists (S n). lia.
  - exists n. lia.
Qed.

Lemma freshPlayer_good (uid nm : string) : fieldGood (SetPlayer uid (freshPlayer uid nm)).
Proof. cbn. intros z [= <-]. apply scoreOk_0. Qed.

Lemma keepsGood_refl (w : World) : good w → good w.
Proof. done. Qed.

Lemma keepsGood_trans (w1 w2 w3 : World) :
  (good w1 → good w2) → (good w2 → good w3) → good w1 → good w3.
Proof. auto. Qed.

Lemma keepsGood_updApp (f : App → App) :
  (∀ c qd, quizData (f c) = Some qd → quizData c = Some qd ∨ roomGood qd) →
  keepsGood (updApp f).
Proof.
  intros Hf. apply respects_updApp. intros w [Hst Hqd]. split; [done|]. cbn. intros qd H.
  destruct (Hf _ _ H); auto.
Qed.

Lemma keepsGood_setQuizData (v : option Room) :
  (∀ qd, v = Some qd → roomGood qd) → keepsGood (setQuizData v).
Proof. intros Hv. apply keepsGood_updApp. intros c qd H. right. by apply Hv. Qed.

Lemma keepsGood_updateDoc (code : string) (fields : list FieldUpdate) :
  Forall fieldGood fields → keepsGood (updateDoc code fields).
Proof.
  intros Hf. apply respects_updateDoc; [apply keepsGood_refl|].
  intros w room Hroom [Hst Hqd]. split; [|done]. cbn. intros code' room'.
  rewrite lookup_insert. case_decide; [|apply Hst]. intros [= <-].
  apply roomGood_apply_fields; [done|]. by eapply Hst.
Qed.

Lemma keepsGood_setDoc (code : string) (room : Room) :
  roomGood room → keepsGood (setDoc code room).
Proof.
  intros Hroom. apply respects_setDoc. intros w [Hst Hqd]. split; [|done]. cbn.
  intros code' room'. rewrite lookup_insert. case_decide; [|apply Hst]. by intros [= <-].
Qed.

Ltac keepsGood :=
  unfold keepsGood;
  respects_by keepsGood_refl keepsGood_trans
    ltac:(first [ apply keepsGood_setQuizData
                | apply keepsGood_updApp; intros ? ? ?; left; assumption ]).

Lemma keepsGood_handleCreateQuiz (c : App) (ds : list nat) (response : Generated) (now : Z)
    (settings : Settings.t) :
  keepsGood (handleCreateQuiz c ds response now settings).
Proof.
  unfold handleCreateQuiz, generateAIQuestions. keepsGood.
  all: apply keepsGood_setDoc; split; cbn;
    [ rewrite lookup_singleton_eq; eauto
    | intros uid p z; rewrite lookup_singleton; case_decide; [|done];
      intros [= <-] [= <-]; apply scoreOk_0 ].
Qed.

Lemma keepsGood_handleJoinQuiz (c : App) (data : JoinQuizPage.data) :
  keepsGood (handleJoinQuiz c data).
Proof.
  unfold handleJoinQuiz. keepsGood.
  apply keepsGood_updateDoc. repeat constructor. apply freshPlayer_good.
Qed.

Lemma keepsGood_handleStartQuiz (c : App) : keepsGood (handleStartQuiz c).
Proof.
  unfold handleStartQuiz. keepsGood. apply keepsGood_updateDoc. by repeat constructor.
Qed.

Lemma keepsGood_handleAnswerSubmit (c : App) (answer : string) :
  (∀ qd, quizData c = Some qd → roomGood qd) →
  keepsGood (handleAnswerSubmit c answer).
Proof.
  intros Hc. unfold handleAnswerSubmit, submitWrite, submitResume.
  destruct (quizData c) as [qd|] eqn:Hqd; [|apply (respects_ret _ keepsGood_refl)].
  destruct (questions qd !! currentQuestionIndex c) as [q|];
    [|apply (respects_throw _ keepsGood_refl)].
  keepsGood.
  - apply keepsGood_updateDoc. repeat constructor. cbn. apply scoreOk_award.
    unfold currentScore. destruct (Hc qd eq_refl) as [_ Hscores].
    destruct (players qd !! userId c) as [p|] eqn:Hp; cbn; [|apply scoreOk_0].
    destruct (score p) as [z|] eqn:Hz; cbn; [by eapply Hscores|apply scoreOk_0].
  - apply keepsGood_updateDoc. by repeat constructor.
Qed.

Lemma keepsGood_onSnapshot (c : App) (docSnap : option Room) :
  (∀ d, docSnap = Some d → roomGood d) → keepsGood (onSnapshot c docSnap).
Proof.
  intros Hd. unfold onSnapshot. destruct docSnap as [data|]; keepsGood.
  intros qd [= <-]. by apply Hd.
Qed.

Lemma keepsGood_handleReturnHome : keepsGood handleReturnHome.
Proof. unfold handleReturnHome. keepsGood. done. Qed.

Lemma handle_good (h : App → M unit) (i : nat) (s : Session) (q : option QuizPage.state)
    (sys : System) :
  keepsGood (h (app s)) → systemGood sys → sessions sys !! i = Some s →
  systemGood (handle h i s q sys).
Proof.
  intros Hh [Hst Hss] Hs.
  destruct (Hh {| client := app s; store := docs sys |}) as [Hst' Hc'].
  { split; [exact Hst|]. cbn. intros qd Hqd. by eapply Hss. }
  unfold handle. split; cbn; [exact Hst'|].
  intros j s' qd Hj. destruct (decide (i = j)) as [<-|Hne].
  - rewrite list_lookup_insert_eq in Hj by (by eapply lookup_lt_Some).
    injection Hj as <-. cbn. apply Hc'.
  - rewrite list_lookup_insert_ne in Hj by done. by eapply Hss.
Qed.

Lemma step_good (i : nat) (e : Event) (sys sys' : System) :
  systemGood sys → step i e sys = Some sys' → systemGood sys'.
Proof.
  intros Hgood. unfold step. destruct (sessions sys !! i) as [s|] eqn:Hs; [|done]. cbn.
  destruct (enabled e s); [|done]. intros [= <-].
  assert (Hsnap : ∀ qd, quizData (app s) = Some qd → roomGood qd).
  { intros qd. by eapply (proj2 Hgood). }
  destruct e as [p|v|ds response now form|edits| | |o| | |].
  - apply handle_good; [keepsGood | done | done].
  - apply handle_good; [keepsGood | done | done].
  - destruct (CreateQuizPage.handleSubmit (userName (app s)) form); [|done].
    apply handle_good; [apply keepsGood_handleCreateQuiz | done | done].
  - destruct (JoinQuizPage.handleSubmit (JoinQuizPage.edited edits)); [|done].
    apply handle_good; [apply keepsGood_handleJoinQuiz | done | done].
  - apply handle_good; [apply keepsGood_handleStartQuiz | done | done].
  - apply handle_good; [|done|done]. apply keepsGood_onSnapshot.
    intros d Hd. by eapply (proj1 Hgood).
  - destruct (decide (selectedAnswer (app s) = Some o)); [done|].
    apply handle_good; [keepsGood | done | done].
  - apply handle_good; [|done|done]. unfold QuizPage.handleButtonClick.
    destruct (selectedAnswer (app s));
      [by apply keepsGood_handleAnswerSubmit | apply (respects_ret _ keepsGood_refl)].
  - destruct (quizPage s) as [q0|]; [|done].
    destruct (QuizPage.tick q0) as [q [|]].
    + apply handle_good; [by apply keepsGood_handleAnswerSubmit | done | done].
    + destruct Hgood as [Hst Hss]. split; [exact Hst|]. cbn.
      intros j s' qd Hj. destruct (decide (i = j)) as [<-|Hne].
      * rewrite list_lookup_insert_eq in Hj by (by eapply lookup_lt_Some).
        injection Hj as <-. cbn. by eapply Hss.
      * rewrite list_lookup_insert_ne in Hj by done. by eapply Hss.
  - apply handle_good; [apply keepsGood_handleReturnHome | done | done].
Qed.

Lemma reachable_good (uids : list string) (sys : System) :
  reachable uids sys → systemGood sys.
Proof.
  induction 1 as [|sys i e sys' _ IH Hstep]; [|by eapply step_good].
  split; cbn.
  - intros code room. by rewrite lookup_empty.
  - intros i s qd Hs. apply list_lookup_fmap_Some in Hs as (uid & -> & _). done.
Qed.

(** The systems of the sample values are reachable. *)
Lemma reachable_systemAfter (es : list (nat * Event)) :
  is_Some (steps es (initialSystem ["adaId"; "boId"])) →
  reachable ["adaId"; "boId"] (systemAfter es).
Proof.
  intros [sys Hsys]. unfold systemAfter. rewrite Hsys. cbn.
  eapply steps_reachable; [apply reachable_initial | exact Hsys].
Qed.

(** X2. In every reachable system the host of a stored room is one of
    the players stored in it: the room is created with the host in it
    and no handler removes a player or changes the host. *)
Theorem host_is_always_a_player (uids : list string) (sys : System)
    (code : string) (room : Room) :
  reachable uids sys →
  docs sys !! code = Some room →
  is_Some (players room !! hostId room).
Proof.
  intros Hr Hroom. destruct (reachable_good uids sys Hr) as [Hst _].
  by destruct (Hst code room Hroom).
Qed.

Lemma host_is_always_a_player_witness :
  is_Some (players twoOnQuiz !! hostId twoOnQuiz).
Proof.
  apply (host_is_always_a_player ["adaId"; "boId"] quizShown "AB12Z" twoOnQuiz).
  - apply reachable_systemAfter. vm_compute. eexists. reflexivity.
  - vm_compute. reflexivity.
Defined.

(** X3. In every reachable system every stored score is a non-negative
    multiple of ten: a player starts at 0, and a submission writes the
    score of the client's copy of the room, itself such a multiple, plus
    10 or 0. *)
Theorem scores_are_multiples_of_ten (uids : list string) (sys : System)
    (code uid : string) (z : Z) :
  reachable uids sys →
  storedScore code uid (docs sys) = Some z →
  ∃ n : nat, z = 10 * Z.of_nat n.
Proof.
  intros Hr Hz. destruct (reachable_good uids sys Hr) as [Hst _].
  unfold storedScore in Hz.
  destruct (docs sys !! code) as [room|] eqn:Hroom; [|done]. cbn in Hz.
  destruct (players room !! uid) as [p|] eqn:Hp; [|done]. cbn in Hz.
  destruct (Hst code room Hroom) as [_ Hscores]. by eapply Hscores.
Qed.

Lemma scores_are_multiples_of_ten_witness : ∃ n : nat, 20 = 10 * Z.of_nat n.
Proof.
  apply (scores_are_multiples_of_ten ["adaId"; "boId"] quizPlayed "AB12Z" "boId" 20).
  - apply reachable_systemAfter. vm_compute. eexists. reflexivity.
  - vm_compute. reflexivity.
Defined.

(** X4. In every reachable system the copy of the room that a client
    holds lists the host among its players; so the Start Quiz button of
    the lobby, which [LobbyPage] disables only for an empty list of
    players, is enabled whenever the host's lobby shows a room. *)
Theorem host_can_always_start (uids : list string) (sys : System) (i : nat) (s : Session)
    (d : Room) :
  reachable uids sys →
  sessions sys !! i = Some s →
  quizData (app s) = Some d →
  is_Some (players d !! hostId d) ∧
  (page (app s) = PLobby → isHost (app s) = true → isLoading (app s) = false →
   enabled Start s = true).
Proof.
  intros Hr Hs Hd. destruct (reachable_good uids sys Hr) as [_ Hss].
  destruct (Hss i s d Hs Hd) as [Hhost _]. split; [exact Hhost|].
  intros Hp Hh Hl. unfold enabled. rewrite Hl, Hp, Hh, Hd.
  rewrite bool_decide_eq_true_2 by done.
  rewrite bool_decide_eq_false_2; [done|].
  intros He. rewrite He, lookup_empty in Hhost. by destruct Hhost.
Qed.

Lemma host_can_always_start_witness :
  enabled Start {| app := client adaInLobby; quizPage := None |} = true.
Proof.
  destruct (host_can_always_start ["adaId"; "boId"] lobbyShown 0
              {| app := client adaInLobby; quizPage := None |} twoInLobby) as [_ Hstart].
  - apply reachable_systemAfter. vm_compute. eexists. reflexivity.
  - vm_compute. reflexivity.
  - vm_compute. reflexivity.
  - apply Hstart; vm_compute; reflexivity.
Defined.

(** ** Submissions *)

(** X5. In a reachable system a submission that the page allows never
    rejects: when the Submit Answer button can be clicked, and when the
    countdown can fire, the client holds a copy of the room, its question
    index is in range and the room is stored, so that neither the
    [TypeError] of the missing question nor the rejection of [updateDoc]
    occurs. *)
Theorem submission_never_rejects (uids : list string) (sys : System) (i : nat) (s : Session) :
  reachable uids sys →
  sessions sys !! i = Some s →
  (enabled Submit s = true →
   snd (QuizPage.handleButtonClick (app s) {| client := app s; store := docs sys |}) = Ok tt) ∧
  (enabled Tick s = true →
   snd (handleAnswerSubmit (app s) QuizPage.noAnswer {| client := app s; store := docs sys |})
   = Ok tt).
Proof.
  intros Hr Hs. destruct (reachable_inv uids sys Hr) as [_ Hss].
  destruct (Hss i s Hs) as [[_ Hquiz] Hint].
  assert (Hok : ∀ a, page (app s) = PQuiz → is_Some (QuizPage.currentQuestion (app s)) →
            snd (handleAnswerSubmit (app s) a {| client := app s; store := docs sys |}) = Ok tt).
  { intros a Hp [q Hq]. destruct (Hquiz Hp) as [[room Hroom] _].
    unfold QuizPage.currentQuestion in Hq.
    destruct (quizData (app s)) as [qd|] eqn:Hqd; [|done]. cbn in Hq.
    by destruct (handleAnswerSubmit_cases (app s) a {| client := app s; store := docs sys |}
                   qd q room Hqd Hq Hroom) as [Hres _]. }
  split; intros Hen; unfold enabled in Hen; apply andb_true_iff in Hen as [_ Hen].
  - apply andb_true_iff in Hen as [Hen _]. apply andb_true_iff in Hen as [Hp Hq].
    apply bool_decide_eq_true in Hp. apply bool_decide_eq_true in Hq.
    unfold QuizPage.handleButtonClick. destruct (selectedAnswer (app s)); [|done].
    by apply Hok.
  - destruct (quizPage s) as [q0|] eqn:Hq0; [|done].
    destruct (Hint q0 eq_refl Hen) as [Hp Hq]. by apply Hok.
Qed.

Lemma submission_never_rejects_witness :
  snd (QuizPage.handleButtonClick (app (boIn boSelected))
         {| client := app (boIn boSelected); store := docs boSelected |}) = Ok tt ∧
  snd (handleAnswerSubmit (app (boIn atLastSecond)) QuizPage.noAnswer
         {| client := app (boIn atLastSecond); store := docs atLastSecond |}) = Ok tt.
Proof.
  split.
  - destruct (submission_never_rejects ["adaId"; "boId"] boSelected 1 (boIn boSelected))
      as [Hsubmit _].
    + apply reachable_systemAfter. vm_compute. eexists. reflexivity.
    + vm_compute. reflexivity.
    + apply Hsubmit. vm_compute. reflexivity.
  - destruct (submission_never_rejects ["adaId"; "boId"] atLastSecond 1 (boIn atLastSecond))
      as [_ Htick].
    + eapply steps_reachable; [apply reachable_initial | exact countdownEvents_run].
    + vm_compute. reflexivity.
    + apply Htick. vm_compute. reflexivity.
Defined.

(** X6. Where a submission fails.  Without a copy of the room the handler
    returns at once and changes nothing.  With a question index out of
    range it throws the [TypeError] of the missing question before any
    state is set.  When the room is not stored, [updateDoc] rejects: the
    stored rooms are as before, the answer has been appended to the
    client's own list, and the question index and the page stay. *)
Theorem submit_failure_modes (c : App) (answer : string) (w : World) :
  (quizData c = None → handleAnswerSubmit c answer w = (w, Ok tt)) ∧
  (∀ qd, quizData c = Some qd →
         (length (questions qd) ≤ currentQuestionIndex c)%nat →
         handleAnswerSubmit c answer w = (w, Throw msgTypeError)) ∧
  (∀ qd q, quizData c = Some qd →
           questions qd !! currentQuestionIndex c = Some q →
           store w !! roomCode c = None →
           let result := handleAnswerSubmit c answer w in
           snd result = Throw msgNoDocument ∧
           store (fst result) = store w ∧
           userAnswers (client (fst result)) =
             userAnswers c ++
               [{| questionIndex := currentQuestionIndex c; answer := answer;
                   isCorrect := bool_decide (answer = correctAnswer q) |}] ∧
           currentQuestionIndex (client (fst result)) = currentQuestionIndex (client w) ∧
           page (client (fst result)) = page (client w)).
Proof.
  split; [|split].
  - intros Hqd. unfold handleAnswerSubmit. by rewrite Hqd.
  - intros qd Hqd Hlen. unfold handleAnswerSubmit. rewrite Hqd.
    by rewrite (lookup_ge_None_2 _ _ Hlen).
  - intros qd q Hqd Hq Hroom. unfold handleAnswerSubmit, submitWrite. rewrite Hqd, Hq.
    run_handler. rewrite Hroom. cbn. unfold updatedAnswers, newAnswer.
    by rewrite eqb_bool_decide.
Qed.

Lemma submit_failure_modes_witness :
  handleAnswerSubmit bo "The Moon" (emptyWorld bo) = (emptyWorld bo, Ok tt) ∧
  handleAnswerSubmit boPastTheEnd "The Moon" boOnQuiz = (boOnQuiz, Throw msgTypeError) ∧
  snd (handleAnswerSubmit (client boOnQuiz) "The Moon" (emptyWorld (client boOnQuiz)))
  = Throw msgNoDocument.
Proof.
  destruct (submit_failure_modes bo "The Moon" (emptyWorld bo)) as (Hnone & _ & _).
  destruct (submit_failure_modes boPastTheEnd "The Moon" boOnQuiz) as (_ & Hrange & _).
  destruct (submit_failure_modes (client boOnQuiz) "The Moon" (emptyWorld (client boOnQuiz)))
    as (_ & _ & Hmissing).
  split; [|split].
  - apply Hnone. reflexivity.
  - apply (Hrange twoOnQuiz).
    + vm_compute. reflexivity.
    + vm_compute. lia.
  - apply (Hmissing twoOnQuiz tides); vm_compute; reflexivity.
Defined.

Lemma handleAnswerSubmit_players (c : App) (answer : string) (w : World) :
  store (fst (handleAnswerSubmit c answer w)) = store w ∨
  ∃ room room' p',
    store w !! roomCode c = Some room ∧
    store (fst (handleAnswerSubmit c answer w)) = <[roomCode c := room']> (store w) ∧
    players room' = <[userId c := p']> (players room).
Proof.
  destruct (quizData c) as [qd|] eqn:Hqd;
    [|left; unfold handleAnswerSubmit; by rewrite Hqd].
  destruct (questions qd !! currentQuestionIndex c) as [q|] eqn:Hq;
    [|left; unfold handleAnswerSubmit; by rewrite Hqd, Hq].
  destruct (store w !! roomCode c) as [room|] eqn:Hroom.
  - right. destruct (handleAnswerSubmit_cases c answer w qd q room Hqd Hq Hroom)
      as (_ & Hst & _).
    exists room. eexists _, _. split; [done|]. split; [exact Hst|].
    replace (players (if isLast c qd then with_status Finished (written c qd q answer room)
                      else written c qd q answer room))
      with (players (written c qd q answer room)) by by destruct (isLast c qd).
    unfold written. apply apply_fields_answers_score.
  - left. unfold handleAnswerSubmit, submitWrite. rewrite Hqd, Hq. run_handler.
    by rewrite Hroom.
Qed.

(** X7. A submission writes to no entry but the submitting player's own:
    the entry of any other player of the room, and every entry of any
    other room, is stored afterwards as it was before, whatever the state
    of the client. *)
Theorem submit_touches_only_own_entry (c : App) (answer : string) (w : World)
    (code uid : string) :
  (code, uid) ≠ (roomCode c, userId c) →
  storedPlayer code uid (store (fst (handleAnswerSubmit c answer w)))
  = storedPlayer code uid (store w).
Proof.
  intros Hne. unfold storedPlayer.
  destruct (handleAnswerSubmit_players c answer w)
    as [->|(room & room' & p' & Hroom & -> & Hp)]; [done|].
  rewrite lookup_insert. case_decide as Hc; [|done]. subst code.
  rewrite Hroom. cbn. rewrite Hp. rewrite lookup_insert_ne; [done|]. congruence.
Qed.

Lemma submit_touches_only_own_entry_witness :
  storedPlayer "AB12Z" "adaId" (store boUnrefreshed) = Some (freshPlayer "adaId" "Ada").
Proof.
  change (store boUnrefreshed)
    with (store (fst (handleAnswerSubmit (client boOnQuiz) "The Moon" boOnQuiz))).
  rewrite (submit_touches_only_own_entry (client boOnQuiz) "The Moon" boOnQuiz "AB12Z" "adaId").
  - vm_compute. reflexivity.
  - vm_compute. discriminate.
Defined.

(** ** Creation, joining and starting *)

(** X8. Creation does not look at what is stored under the code it has
    drawn: the store after it is the same whether or not a room was
    there, so that a room already under that code, with its players and
    scores, is lost; every other room stays as it was. *)
Theorem create_overwrites_the_room_under_its_code (c : App) (ds : list nat)
    (q : Question) (items : list Question) (now : Z) (settings : Settings.t) (w : World) :
  let create := fun st =>
    store (fst (handleCreateQuiz c ds (JsonArray (q :: items)) now settings
                  {| client := client w; store := st |})) in
  create (store w) = create (delete (generateRoomCode ds) (store w)) ∧
  ∀ code, code ≠ generateRoomCode ds → create (store w) !! code = store w !! code.
Proof.
  cbv beta zeta. rewrite !handleCreateQuiz_cases. cbn. split.
  - by rewrite insert_delete_eq.
  - intros code Hne. by rewrite lookup_insert_ne.
Qed.

(** X9. A player who is not in a room that is still in the lobby joins
    it: the room gains exactly one player, the joiner with score 0 and no
    answers; its status, its questions and its other players stay, and so
    does every other room; the client shows the lobby of that room, as a
    guest under the name typed. *)
Theorem join_adds_one_player (c : App) (data : JoinQuizPage.data) (w : World) (room : Room) :
  store w !! JoinQuizPage.roomCode data = Some room →
  status room = Lobby →
  players room !! userId c = None →
  let w' := fst (handleJoinQuiz c data w) in
  ∃ room',
    store w' !! JoinQuizPage.roomCode data = Some room' ∧
    status room' = Lobby ∧
    questions room' = questions room ∧
    size (players room') = S (size (players room)) ∧
    players room' !! userId c = Some (freshPlayer (userId c) (JoinQuizPage.playerName data)) ∧
    (∀ uid, uid ≠ userId c → players room' !! uid = players room !! uid) ∧
    (∀ code, code ≠ JoinQuizPage.roomCode data → store w' !! code = store w !! code) ∧
    page (client w') = PLobby ∧
    roomCode (client w') = JoinQuizPage.roomCode data ∧
    userName (client w') = JoinQuizPage.playerName data ∧
    isHost (client w') = false ∧
    isLoading (client w') = false ∧
    error (client w') = "".
Proof.
  intros Hroom Hst Hnew. cbn zeta. unfold handleJoinQuiz. run_handler.
  rewrite Hroom. cbn. rewrite decide_False by (rewrite Hst; intros ?; done). cbn.
  rewrite Hroom. cbn. eexists. rewrite lookup_insert_eq. split; [done|]. cbn.
  split; [exact Hst|]. split; [done|].
  split; [by apply map_size_insert_None|].
  split; [by rewrite lookup_insert_eq|].
  split; [intros uid Hne; by rewrite lookup_insert_ne|].
  split; [intros code Hne; by rewrite lookup_insert_ne|]. done.
Qed.

Lemma join_adds_one_player_witness :
  ∃ room',
    store (fst (handleJoinQuiz bo boJoins (seenFrom bo adaCreated))) !! "AB12Z" = Some room' ∧
    size (players room') = 2%nat ∧
    players room' !! "boId" = Some (freshPlayer "boId" "Bo").
Proof.
  destruct (join_adds_one_player bo boJoins (seenFrom bo adaCreated) adaAlone)
    as (room' & Hroom' & _ & _ & Hsize & Hbo & _).
  - vm_compute. reflexivity.
  - reflexivity.
  - vm_compute. reflexivity.
  - exists room'. split; [exact Hroom'|]. split; [|exact Hbo].
    rewrite Hsize. vm_compute. reflexivity.
Defined.

(** X10. Starting writes the status and nothing else.  When the room is
    stored it becomes in progress, whatever its status was, and the other
    fields and rooms stay; when it is not, nothing is written and the
    client shows the start error.  The handler never throws, always ends
    with the loading flag cleared, never changes the page itself, and a
    second start changes nothing in the store. *)
Theorem start_writes_status_only (c : App) (w : World) :
  let w' := fst (handleStartQuiz c w) in
  match store w !! roomCode c with
  | Some room =>
      store w' = <[roomCode c := with_status InProgress room]> (store w) ∧
      error (client w') = error (client w)
  | None => store w' = store w ∧ error (client w') = msgStartFailed
  end ∧
  snd (handleStartQuiz c w) = Ok tt ∧
  isLoading (client w') = false ∧
  page (client w') = page (client w) ∧
  store (fst (handleStartQuiz c w')) = store w'.
Proof.
  cbn zeta. unfold handleStartQuiz. run_handler.
  destruct (store w !! roomCode c) as [room|] eqn:Hroom; cbn.
  - rewrite lookup_insert_eq. cbn. by rewrite insert_insert_eq.
  - rewrite Hroom. done.
Qed.

(** ** The countdown and the snapshots *)

(** X11. Until its last second the countdown only counts: [k] firings of
    the interval of a quiz page with more than [k] seconds left lower
    [timeLeft] by [k], keep the interval running, submit nothing and
    leave the store and the other sessions as they were. *)
Theorem countdown_before_last_second (k : nat) (i : nat) (sys : System) (s : Session) (T : Z) :
  sessions sys !! i = Some s →
  isLoading (app s) = false →
  quizPage s = Some {| QuizPage.timeLeft := T; QuizPage.interval := true |} →
  Z.of_nat k < T →
  steps (replicate k (i, Tick)) sys =
    Some {| docs := docs sys;
            sessions :=
              <[i := {| app := app s;
                        quizPage := Some {| QuizPage.timeLeft := T - Z.of_nat k;
                                            QuizPage.interval := true |} |}]>
                (sessions sys) |}.
Proof.
  revert sys s T. induction k as [|k IH]; intros sys s T Hs Hload Hq Hk.
  - cbn. rewrite Z.sub_0_r, <- Hq. destruct sys as [d ss], s as [a q]. cbn in *.
    by rewrite list_insert_id.
  - replace (T - Z.of_nat (S k)) with (T - 1 - Z.of_nat k) by lia.
    cbn [replicate steps]. unfold step at 1. rewrite Hs. cbn.
    unfold enabled. rewrite Hload, Hq. cbn.
    assert (Hgt : (T <=? 1) = false) by (apply Z.leb_gt; lia).
    unfold QuizPage.tick. cbn. rewrite Hgt.
    erewrite IH; cycle 1.
    + cbn. apply list_lookup_insert_eq. by eapply lookup_lt_Some.
    + exact Hload.
    + reflexivity.
    + lia.
    + cbn. by rewrite list_insert_insert_eq.
Qed.

Lemma countdown_before_last_second_witness :
  steps (replicate 29 (1%nat, Tick)) quizShown =
    Some {| docs := docs quizShown;
            sessions :=
              <[1%nat := {| app := app (boIn quizShown);
                            quizPage := Some {| QuizPage.timeLeft := 30 - Z.of_nat 29;
                                                QuizPage.interval := true |} |}]>
                (sessions quizShown) |}.
Proof.
  apply (countdown_before_last_second 29 1 quizShown (boIn quizShown) 30).
  - vm_compute. reflexivity.
  - vm_compute. reflexivity.
  - vm_compute. reflexivity.
  - lia.
Defined.

(** X12. Delivering the same snapshot twice is the same as delivering it
    once: the second delivery finds the page and the finished flag that
    the first has set, and so resets neither the question index nor the
    answers of a client that is on the quiz page. *)
Theorem snapshot_delivery_is_idempotent (docSnap : option Room) (w : World) :
  let deliver := after (fun c => onSnapshot c docSnap) in
  deliver (deliver w) = deliver w.
Proof.
  cbn zeta. unfold after, run, onSnapshot. destruct docSnap as [data|]; run_handler.
  - destruct (decide (status data = InProgress ∧ page (client w) ≠ PQuiz)) as [[Hs Hp]|Hno];
      cbn.
    + rewrite (decide_False (P := status data = Finished ∧ _)) by (rewrite Hs; intros [? _]; done).
      cbn. rewrite decide_False by (intros [_ ?]; done). cbn.
      rewrite decide_False by (rewrite Hs; intros [? _]; done). done.
    + destruct (decide (status data = Finished ∧ quizFinished (client w) = false))
        as [[Hs Hf]|Hno']; cbn.
      * rewrite decide_False by (rewrite Hs; intros [? _]; done). cbn.
        rewrite decide_False by (intros [_ ?]; done). done.
      * rewrite decide_False by done. cbn. rewrite decide_False by done. done.
  - done.
Qed.

(** ** Playing a quiz through *)

Lemma snapshot_during_quiz (w : World) (room : Room) :
  store w !! roomCode (client w) = Some room →
  (status room = InProgress → page (client w) = PQuiz) →
  (status room = Finished → quizFinished (client w) = true) →
  let w' := snapshot w in
  store w' = store w ∧
  quizData (client w') = Some room ∧
  page (client w') = page (client w) ∧
  quizFinished (client w') = quizFinished (client w) ∧
  currentQuestionIndex (client w') = currentQuestionIndex (client w) ∧
  userAnswers (client w') = userAnswers (client w) ∧
  roomCode (client w') = roomCode (client w) ∧
  userId (client w') = userId (client w).
Proof.
  intros Hroom Hp Hf. cbn zeta. unfold snapshot, after, run, onSnapshot. rewrite Hroom.
  run_handler.
  rewrite decide_False by (intros [Hs Hne]; by apply Hne, Hp). cbn.
  rewrite decide_False by (intros [Hs Hne]; rewrite Hf in Hne; done). done.
Qed.

Lemma handleAnswerSubmit_finished (c : App) (answer : string) (w : World)
    (qd : Room) (q : Question) (room : Room) :
  quizData c = Some qd →
  questions qd !! currentQuestionIndex c = Some q →
  store w !! roomCode c = Some room →
  quizFinished (client (fst (handleAnswerSubmit c answer w)))
  = (if isLast c qd then true else quizFinished (client w)).
Proof.
  intros Hqd Hq Hroom. unfold handleAnswerSubmit, submitWrite, submitResume, isLast.
  rewrite Hqd, Hq. run_handler. rewrite Hroom. cbn.
  destruct (Z.of_nat (currentQuestionIndex c) <? Z.of_nat (length (questions qd)) - 1);
    cbn; [done|].
  rewrite lookup_insert_eq. done.
Qed.

Lemma correctAnswers_cons (a : Answer) (l : list Answer) :
  ResultsPage.correctAnswers (a :: l)
  = ((if isCorrect a then 1 else 0) + ResultsPage.correctAnswers l)%nat.
Proof. unfold ResultsPage.correctAnswers. cbn. by destruct (isCorrect a). Qed.

Lemma graded_nil (k : nat) (qs : list Question) : graded k qs [] = [].
Proof. by destruct qs. Qed.

Lemma playOne_spec (a : string) (w : World) (room : Room) (s : Z) (q : Question) :
  playing room s w →
  questions room !! currentQuestionIndex (client w) = Some q →
  let c := client w in
  let c' := client (playOne a w) in
  let r := {| questionIndex := currentQuestionIndex c; answer := a;
              isCorrect := String.eqb a (correctAnswer q) |} in
  ∃ room' p',
    store (playOne a w) !! roomCode c' = Some room' ∧
    quizData c' = Some room' ∧
    players room' !! userId c' = Some p' ∧
    score p' = Some (s + scoreIncrement (isCorrect r)) ∧
    answers p' = Some (userAnswers c') ∧
    userAnswers c' = userAnswers c ++ [r] ∧
    questions room' = questions room ∧
    roomCode c' = roomCode c ∧ userId c' = userId c ∧
    if isLast c room
    then status room' = Finished ∧ page c' = PResults ∧ quizFinished c' = true
    else status room' = InProgress ∧ page c' = PQuiz ∧
         currentQuestionIndex c' = S (currentQuestionIndex c).
Proof.
  intros (Hroom & Hqd & Hp & Hst & p & Hpl & Hs & Ha) Hq. cbn zeta.
  pose (w1 := after (fun c => handleAnswerSubmit c a) w).
  destruct (handleAnswerSubmit_cases (client w) a w room q room Hqd Hq Hroom)
    as (_ & Hstore & Hua & Hidx & Hpage & Hcode & Huid & _).
  assert (Hfin := handleAnswerSubmit_finished (client w) a w room q room Hqd Hq Hroom).
  fold (run (fun c => handleAnswerSubmit c a) w) in Hstore, Hua, Hidx, Hpage, Hcode, Huid, Hfin.
  fold (after (fun c => handleAnswerSubmit c a) w) in Hstore, Hua, Hidx, Hpage, Hcode, Huid, Hfin.
  fold w1 in Hstore, Hua, Hidx, Hpage, Hcode, Huid, Hfin.
  set (room1 := if isLast (client w) room
                then with_status Finished (written (client w) room q a room)
                else written (client w) room q a room) in *.
  assert (Hroom1 : store w1 !! roomCode (client w1) = Some room1)
    by by rewrite Hcode, Hstore, lookup_insert_eq.
  assert (Hstatus1 : status room1 = if isLast (client w) room then Finished else InProgress).
  { unfold room1. destruct (isLast (client w) room); [done|]. exact Hst. }
  assert (Hplayers1 : players room1 = players (written (client w) room q a room)).
  { unfold room1. by destruct (isLast (client w) room). }
  assert (Hquestions1 : questions room1 = questions room).
  { unfold room1. by destruct (isLast (client w) room). }
  destruct (snapshot_during_quiz w1 room1 Hroom1)
    as (Hs2 & Hqd2 & Hp2 & Hf2 & Hi2 & Hu2 & Hc2 & Hid2).
  { rewrite Hstatus1, Hpage. destruct (isLast (client w) room); [done|]. by intros _. }
  { rewrite Hstatus1, Hfin. destruct (isLast (client w) room); done. }
  unfold playOne. fold w1.
  exists room1. eexists.
  rewrite Hs2, Hc2, Hqd2, Hid2, Hu2, Hp2, Hf2, Hi2.
  split; [exact Hroom1|]. split; [done|].
  split.
  { rewrite Hplayers1, Huid. unfold written.
    rewrite apply_fields_answers_score, lookup_insert_eq. done. }
  cbn. unfold currentScore. rewrite Hpl. cbn. rewrite Hs. cbn.
  split; [done|]. split; [by rewrite Hua|]. split; [exact Hua|].
  split; [exact Hquestions1|]. split; [exact Hcode|]. split; [exact Huid|].
  rewrite Hstatus1, Hpage, Hfin, Hidx. destruct (isLast (client w) room); [done|].
  by rewrite Hp.
Qed.

Lemma isLast_spec (c : App) (room : Room) :
  (currentQuestionIndex c < length (questions room))%nat →
  isLast c room = bool_decide (S (currentQuestionIndex c) = length (questions room)).
Proof.
  intros Hlt. unfold isLast. case_bool_decide as H.
  - apply negb_true_iff, Z.ltb_ge. lia.
  - apply negb_false_iff, Z.ltb_lt. lia.
Qed.

Lemma playAll_spec (given : list string) (w : World) (room : Room) (s : Z) :
  playing room s w →
  (currentQuestionIndex (client w) + length given ≤ length (questions room))%nat →
  let c := client w in
  let c' := client (playAll given w) in
  let records :=
    graded (currentQuestionIndex c) (drop (currentQuestionIndex c) (questions room)) given in
  ∃ room' p',
    store (playAll given w) !! roomCode c' = Some room' ∧
    quizData c' = Some room' ∧
    players room' !! userId c' = Some p' ∧
    score p' = Some (s + 10 * Z.of_nat (ResultsPage.correctAnswers records)) ∧
    answers p' = Some (userAnswers c') ∧
    userAnswers c' = userAnswers c ++ records ∧
    questions room' = questions room ∧
    roomCode c' = roomCode c ∧ userId c' = userId c ∧
    if decide (given ≠ [] ∧
               (currentQuestionIndex c + length given)%nat = length (questions room))
    then status room' = Finished ∧ page c' = PResults ∧ quizFinished c' = true
    else status room' = InProgress ∧ page c' = PQuiz ∧
         currentQuestionIndex c' = (currentQuestionIndex c + length given)%nat.
Proof.
  revert w room s. induction given as [|a rest IH]; intros w room s Hplay Hlen; cbn zeta.
  - destruct Hplay as (Hroom & Hqd & Hp & Hst & p & Hpl & Hs & Ha).
    rewrite graded_nil. cbn. exists room, p.
    rewrite decide_False by (intros [? _]; done).
    rewrite app_nil_r, Z.add_0_r, Nat.add_0_r. done.
  - cbn in Hlen.
    destruct (lookup_lt_is_Some_2 (questions room) (currentQuestionIndex (client w)))
      as [q Hq]; [lia|].
    rewrite (drop_S _ _ _ Hq). cbn [graded playAll fold_left].
    destruct (playOne_spec a w room s q Hplay Hq)
      as (room1 & p1 & Hroom1 & Hqd1 & Hpl1 & Hs1 & Ha1 & Hua1 & Hqs1 & Hc1 & Hid1 & Hcase).
    rewrite isLast_spec in Hcase by lia.
    rewrite correctAnswers_cons. cbn [isCorrect].
    case_bool_decide as Hlast.
    + assert (rest = []) as -> by (apply nil_length_inv; lia).
      cbn [fold_left]. rewrite graded_nil. exists room1, p1.
      rewrite decide_True by (split; [done|cbn; lia]).
      split; [done|]. split; [done|]. split; [done|].
      split.
      { rewrite Hs1. f_equal. unfold scoreIncrement, ResultsPage.correctAnswers. cbn.
        destruct (a =? correctAnswer q)%string; lia. }
      done.
    + destruct Hcase as (Hst1 & Hp1 & Hi1).
      destruct (IH (playOne a w) room1 (s + scoreIncrement (a =? correctAnswer q)%string))
        as (room' & p' & Hroom' & Hqd' & Hpl' & Hs' & Ha' & Hua' & Hqs' & Hc' & Hid' & Hcase').
      { split; [done|]. split; [done|]. split; [done|]. split; [done|]. eauto. }
      { rewrite Hi1, Hqs1. lia. }
      change (fold_left (λ acc answer, playOne answer acc) rest (playOne a w))
        with (playAll rest (playOne a w)).
      exists room', p'. rewrite Hi1, Hqs1 in *.
      split; [done|]. split; [done|]. split; [done|].
      split.
      { rewrite Hs'. f_equal. unfold scoreIncrement.
        destruct (a =? correctAnswer q)%string; lia. }
      split; [done|]. split; [by rewrite Hua', Hua1, <- app_assoc|].
      split; [congruence|]. split; [congruence|]. split; [congruence|].
      destruct (decide (rest ≠ [] ∧ (S (currentQuestionIndex (client w)) + length rest)%nat
                                    = length (questions room))) as [[Hne Heq]|Hno].
      * rewrite decide_True by (split; [done|cbn; lia]). done.
      * rewrite decide_False.
        -- destruct Hcase' as (? & ? & ->). repeat split; try done. cbn. lia.
        -- intros [_ Heq]. cbn in Heq. apply Hno. split; [|lia].
           intros ->. cbn in Heq. lia.
Qed.

(** X13. A client that receives the snapshot of its room after each of
    its answers, and has questions left after those it gives, is stored
    with every answer it gave, in order and graded against the question
    of its index, and with its score raised by ten for each correct one;
    the room stays in progress and the client on the quiz page, at the
    question after the last one answered. *)
Theorem progress_with_fresh_snapshots (given : list string) (w : World) (room : Room) (s : Z) :
  playing room s w →
  (currentQuestionIndex (client w) + length given < length (questions room))%nat →
  let c := client w in
  let w' := playAll given w in
  let records :=
    graded (currentQuestionIndex c) (drop (currentQuestionIndex c) (questions room)) given in
  storedScore (roomCode c) (userId c) (store w')
    = Some (s + 10 * Z.of_nat (ResultsPage.correctAnswers records)) ∧
  storedAnswers (roomCode c) (userId c) (store w') = Some (userAnswers c ++ records) ∧
  userAnswers (client w') = userAnswers c ++ records ∧
  currentQuestionIndex (client w') = (currentQuestionIndex c + length given)%nat ∧
  statusOf (roomCode c) (store w') = Some InProgress ∧
  page (client w') = PQuiz.
Proof.
  intros Hplay Hlen. cbn zeta.
  destruct (playAll_spec given w room s Hplay)
    as (room' & p' & Hroom' & Hqd' & Hpl' & Hs' & Ha' & Hua' & Hqs' & Hc' & Hid' & Hcase);
    [lia|].
  rewrite decide_False in Hcase by lia. destruct Hcase as (Hst & Hp & Hi).
  rewrite Hc' in Hroom'. rewrite Hid' in Hpl'.
  unfold storedScore, storedAnswers, statusOf. rewrite Hroom'. cbn. rewrite Hpl'. cbn.
  rewrite Hs', Ha', Hua', Hst. done.
Qed.

Lemma progress_with_fresh_snapshots_witness :
  storedScore "AB12Z" "boId" (store (playAll ["The Moon"] boOnQuiz)) = Some 10 ∧
  currentQuestionIndex (client (playAll ["The Moon"] boOnQuiz)) = 1%nat.
Proof.
  destruct (progress_with_fresh_snapshots ["The Moon"] boOnQuiz twoOnQuiz 0)
    as (Hscore & _ & _ & Hindex & _).
  - unfold playing. repeat split; try (vm_compute; reflexivity).
    exists (freshPlayer "boId" "Bo"). repeat split; vm_compute; reflexivity.
  - vm_compute. lia.
  - split; [vm_compute in Hscore |- *; exact Hscore | vm_compute in Hindex |- *; exact Hindex].
Defined.

Lemma userAnswer_graded (k0 : nat) (qs : list Question) (given : list string)
    (j : nat) (a : string) (q : Question) :
  given !! j = Some a → qs !! j = Some q →
  ResultsPage.userAnswer (graded k0 qs given) (k0 + j)
  = Some {| questionIndex := k0 + j; answer := a;
            isCorrect := String.eqb a (correctAnswer q) |}.
Proof.
  revert k0 qs given. induction j as [|j IH]; intros k0 [|q0 qs] [|a0 given] Ha Hq;
    try done; cbn in *.
  - injection Ha as ->. injection Hq as ->. unfold ResultsPage.userAnswer. cbn.
    by rewrite Nat.add_0_r, Nat.eqb_refl.
  - unfold ResultsPage.userAnswer. cbn.
    rewrite (proj2 (Nat.eqb_neq _ _)) by lia.
    replace (k0 + S j)%nat with (S k0 + j)%nat by lia. by apply IH.
Qed.

Lemma graded_length (k0 : nat) (qs : list Question) (given : list string) :
  length (graded k0 qs given) = (length qs `min` length given)%nat.
Proof.
  revert k0 given. induction qs as [|q qs IH]; intros k0 [|a given]; cbn; try done.
  by rewrite IH.
Qed.

(** X14. A client that starts at the first question with score 0 and no
    answers, answers every question and receives the snapshot of its room
    in between, ends on the results page of a finished room; one answer
    is stored for every question, the stored score is ten times the
    number of correct answers that [ResultsPage] counts, and the answer
    that its breakdown finds for a question is the one that was given to
    it. *)
Theorem whole_quiz_results (given : list string) (w : World) (room : Room) :
  playing room 0 w →
  currentQuestionIndex (client w) = 0%nat →
  userAnswers (client w) = [] →
  given ≠ [] →
  length given = length (questions room) →
  let c := client w in
  let w' := playAll given w in
  ∃ l,
    storedAnswers (roomCode c) (userId c) (store w') = Some l ∧
    length l = length (questions room) ∧
    storedScore (roomCode c) (userId c) (store w')
      = Some (10 * Z.of_nat (ResultsPage.correctAnswers l)) ∧
    statusOf (roomCode c) (store w') = Some Finished ∧
    page (client w') = PResults ∧
    ∀ k a q, given !! k = Some a → questions room !! k = Some q →
      ResultsPage.userAnswer l k
      = Some {| questionIndex := k; answer := a;
                isCorrect := bool_decide (a = correctAnswer q) |}.
Proof.
  intros Hplay Hidx Hua Hne Hlen. cbn zeta.
  destruct (playAll_spec given w room 0 Hplay)
    as (room' & p' & Hroom' & Hqd' & Hpl' & Hs' & Ha' & Hua' & Hqs' & Hc' & Hid' & Hcase);
    [lia|].
  rewrite decide_True in Hcase by (split; [done|lia]). destruct Hcase as (Hst & Hp & _).
  rewrite Hc' in Hroom'. rewrite Hid' in Hpl'.
  rewrite Hidx, Hua in *. rewrite drop_0 in *. cbn in Hua'.
  exists (graded 0 (questions room) given).
  unfold storedScore, storedAnswers, statusOf. rewrite Hroom'. cbn. rewrite Hpl'. cbn.
  rewrite Hs', Ha', Hua', Hst.
  split; [done|]. split; [rewrite graded_length; lia|]. split; [done|].
  split; [done|]. split; [done|].
  intros k a q Hk Hq. rewrite <- eqb_bool_decide.
  by apply (userAnswer_graded 0 (questions room) given k a q).
Qed.

Lemma whole_quiz_results_witness :
  ∃ l,
    storedAnswers "AB12Z" "boId" (store (playAll ["The Moon"; "Atlantic"] boOnQuiz)) = Some l ∧
    length l = 2%nat ∧
    storedScore "AB12Z" "boId" (store (playAll ["The Moon"; "Atlantic"] boOnQuiz)) = Some 10.
Proof.
  destruct (whole_quiz_results ["The Moon"; "Atlantic"] boOnQuiz twoOnQuiz)
    as (l & Hl & Hlen & Hscore & _).
  - unfold playing. repeat split; try (vm_compute; reflexivity).
    exists (freshPlayer "boId" "Bo"). repeat split; vm_compute; reflexivity.
  - vm_compute. reflexivity.
  - vm_compute. reflexivity.
  - discriminate.
  - reflexivity.
  - exists l. split; [exact Hl|]. split; [exact Hlen|].
    vm_compute in Hl. injection Hl as <-. vm_compute in Hscore |- *. exact Hscore.
Defined.

(** X15. Two answers without a snapshot in between.  The second
    submission computes its score from the same copy of the room as the
    first, so the score stored after it is the score of that copy plus
    the award of the second answer alone: the award of the first is
    overwritten.  The stored answers hold both. *)
Theorem second_answer_without_snapshot (c : App) (a1 a2 : string) (w : World)
    (qd room : Room) (q1 q2 : Question) :
  client w = c →
  quizData c = Some qd →
  questions qd !! currentQuestionIndex c = Some q1 →
  questions qd !! S (currentQuestionIndex c) = Some q2 →
  store w !! roomCode c = Some room →
  let w1 := after (fun c => handleAnswerSubmit c a1) w in
  let w2 := after (fun c => handleAnswerSubmit c a2) w1 in
  storedScore (roomCode c) (userId c) (store w1)
    = Some (currentScore c qd + (if decide (a1 = correctAnswer q1) then 10 else 0)) ∧
  storedScore (roomCode c) (userId c) (store w2)
    = Some (currentScore c qd + (if decide (a2 = correctAnswer q2) then 10 else 0)) ∧
  (indices <$> storedAnswers (roomCode c) (userId c) (store w2))
    = Some (indices (userAnswers c)
            ++ [currentQuestionIndex c; S (currentQuestionIndex c)]).
Proof.
  intros Hc Hqd Hq1 Hq2 Hroom. cbn zeta. unfold after, run. rewrite Hc.
  destruct (handleAnswerSubmit_cases c a1 w qd q1 room Hqd Hq1 Hroom)
    as (_ & Hst1 & Hua1 & Hidx1 & _ & Hcode1 & Huid1 & Hqd1).
  destruct (handleAnswerSubmit_entry c a1 w qd q1 room Hqd Hq1 Hroom)
    as (room1 & Hroom1 & Hp1).
  assert (Hnot : isLast c qd = false).
  { unfold isLast. apply negb_false_iff, Z.ltb_lt.
    apply lookup_lt_Some in Hq2. lia. }
  rewrite Hnot, Hc in Hidx1. rewrite Hc in Hcode1, Huid1, Hqd1.
  set (w1 := fst (handleAnswerSubmit c a1 w)) in *.
  set (c1 := client w1) in *.
  assert (Hqd1' : quizData c1 = Some qd) by congruence.
  assert (Hq2' : questions qd !! currentQuestionIndex c1 = Some q2) by by rewrite Hidx1.
  assert (Hroom1' : store w1 !! roomCode c1 = Some room1) by by rewrite Hcode1.
  destruct (handleAnswerSubmit_entry c1 a2 w1 qd q2 room1 Hqd1' Hq2' Hroom1')
    as (room2 & Hroom2 & Hp2).
  rewrite Hcode1 in Hroom2. rewrite Huid1 in Hp2.
  unfold storedScore, storedAnswers. rewrite Hroom1, Hroom2. cbn.
  rewrite Hp1, Hp2. cbn.
  split; [done|]. split.
  - unfold currentScore. by rewrite Huid1.
  - unfold updatedAnswers at 1. rewrite Hua1. unfold updatedAnswers.
    unfold indices. rewrite !fmap_app. cbn. rewrite Hidx1. by rewrite <- app_assoc.
Qed.

Lemma second_answer_without_snapshot_witness :
  storedScore "AB12Z" "boId"
    (store (after (fun c => handleAnswerSubmit c "Pacific") boUnrefreshed)) = Some 10.
Proof.
  destruct (second_answer_without_snapshot (client boOnQuiz) "The Moon" "Pacific" boOnQuiz
              twoOnQuiz twoOnQuiz tides deepest) as (_ & Hsecond & _).
  - reflexivity.
  - vm_compute. reflexivity.
  - vm_compute. reflexivity.
  - vm_compute. reflexivity.
  - vm_compute. reflexivity.
  - vm_compute in Hsecond |- *. exact Hsecond.
Defined.

Lemma userAnswer_NoDup (l : list Answer) (a : Answer) :
  NoDup (indices l) → a ∈ l → ResultsPage.userAnswer l (questionIndex a) = Some a.
Proof.
  unfold ResultsPage.userAnswer.
  induction l as [|b l IH]; intros Hnd Hin; [by apply elem_of_nil in Hin|].
  cbn in *. apply NoDup_cons in Hnd as [Hb Hnd].
  apply elem_of_cons in Hin as [->|Hin]; [by rewrite Nat.eqb_refl|].
  rewrite (proj2 (Nat.eqb_neq _ _)); [by apply IH|].
  intros Heq. apply Hb. rewrite Heq. by apply list_elem_of_fmap_2.
Qed.

(** X16. Provided every submission runs to its end before the client's
    next event, as the steps of a reachable system do, the answer that
    the breakdown of [ResultsPage] finds for the question index of a
    stored answer is that answer itself: [find] stops at the first record
    of an index, and no stored list then holds two records of one index.
    (Without the proviso a list can hold two, as in C9, and [find] gives
    the first.) *)
Theorem breakdown_finds_the_stored_answer (uids : list string) (sys : System)
    (code uid : string) (l : list Answer) (a : Answer) :
  reachable uids sys →
  storedAnswers code uid (docs sys) = Some l →
  a ∈ l →
  ResultsPage.userAnswer l (questionIndex a) = Some a.
Proof.
  intros Hr Hl Hin. destruct (reachable_inv uids sys Hr) as [Hst _].
  apply userAnswer_NoDup; [|done]. unfold storedAnswers in Hl.
  destruct (docs sys !! code) as [room|] eqn:Hroom; [|done]. cbn in Hl.
  destruct (players room !! uid) as [p|] eqn:Hp; [|done]. cbn in Hl.
  by eapply Hst.
Qed.

Lemma breakdown_finds_the_stored_answer_witness :
  ResultsPage.userAnswer
    [{| questionIndex := 0; answer := "No Answer"; isCorrect := false |}] 0
  = Some {| questionIndex := 0; answer := "No Answer"; isCorrect := false |}.
Proof.
  apply (breakdown_finds_the_stored_answer ["adaId"; "boId"] boTimedOut "AB12Z" "boId"
           [{| questionIndex := 0; answer := "No Answer"; isCorrect := false |}]
           {| questionIndex := 0; answer := "No Answer"; isCorrect := false |}).
  - apply reachable_systemAfter. vm_compute. eexists. reflexivity.
  - vm_compute. reflexivity.
  - apply list_elem_of_here.
Defined.

(** ** The call of the model *)

Lemma callGeminiAPI_Ok (fetched : Gemini.Fetched) (t : string) :
  callGeminiAPI fetched = Ok t →
  t ≠ "" ∧
  ∃ status c cs ct p ps,
    fetched = Gemini.Responded status
                (Ok (Some {| Gemini.candidates := Some (c :: cs) |})) ∧
    (200 ≤ status ≤ 299)%nat ∧
    Gemini.content c = Some ct ∧
    Gemini.parts ct = Some (p :: ps) ∧
    Gemini.text p = Some t.
Proof.
  destruct fetched as [m|status [[[cands]|]|m]]; cbn; try done.
  - destruct (negb (Gemini.ok status)) eqn:Hok; [done|].
    apply negb_false_iff, andb_true_iff in Hok as [H1 H2].
    apply Nat.leb_le in H1. apply Nat.leb_le in H2.
    destruct cands as [[|c cs]|]; cbn; try done.
    destruct c as [[ct|]]; cbn; try done.
    destruct ct as [[[|p ps]|]]; cbn; try done.
    destruct p as [[[|a s]|]]; cbn; try done.
    intros [= <-]. split; [done|]. eexists status, _, cs, _, _, ps. done.
  - by destruct (negb (Gemini.ok status)).
Qed.

(** X17. [callGeminiAPI] returns a text exactly when the request was
    answered with a status from 200 to 299 and a body that parses to an
    object whose first candidate has a content whose first part has a
    non-empty text, and then it returns that text; in every other case it
    throws.  In particular it never returns the empty string. *)
Theorem callGeminiAPI_returns_first_text (fetched : Gemini.Fetched) (t : string) :
  callGeminiAPI fetched = Ok t ↔
  t ≠ "" ∧
  ∃ status c cs ct p ps,
    fetched = Gemini.Responded status
                (Ok (Some {| Gemini.candidates := Some (c :: cs) |})) ∧
    (200 ≤ status ≤ 299)%nat ∧
    Gemini.content c = Some ct ∧
    Gemini.parts ct = Some (p :: ps) ∧
    Gemini.text p = Some t.
Proof.
  split; [apply callGeminiAPI_Ok|].
  intros (Hne & status & c & cs & ct & p & ps & -> & [H1 H2] & Hc & Hp & Ht). cbn.
  assert (Hok : negb (Gemini.ok status) = false).
  { apply negb_false_iff, andb_true_iff. split; by apply Nat.leb_le. }
  rewrite Hok. cbn. rewrite Hc. cbn. rewrite Hp. cbn. rewrite Ht.
  by destruct t.
Qed.

Lemma callGeminiAPI_returns_first_text_witness : callGeminiAPI wellDone = Ok "Well done.".
Proof.
  apply (proj2 (callGeminiAPI_returns_first_text wellDone "Well done.")).
  split; [discriminate|].
  eexists 200%nat, _, [], _, _, []. split; [reflexivity|].
  split; [lia|]. split; [reflexivity|]. split; reflexivity.
Defined.

(** X18. Once the call of [getAIPerformanceSummary] has returned or
    thrown, the loading flag is cleared and the summary shown is never
    empty: it is the text that the model returned, or else the apology. *)
Theorem summary_is_never_empty (fetched : Gemini.Fetched) :
  let s := Summary.completed fetched in
  Summary.isSummaryLoading s = false ∧
  Summary.aiSummary s ≠ "" ∧
  match callGeminiAPI fetched with
  | Ok t => Summary.aiSummary s = t
  | Throw _ => Summary.aiSummary s = Summary.apology
  end.
Proof.
  cbn. split; [done|]. destruct (callGeminiAPI fetched) as [t|e] eqn:H; [|done].
  split; [|done]. by apply callGeminiAPI_Ok in H as [? _].
Qed.

(** ** Room codes and the join form *)

(** X19. The shape of a room code, for every draw of base-36 digits: it
    has at most five characters, and five exactly when the draw has at
    least five digits; its characters are digits and upper-case letters;
    and upper-casing it, as the join form does with what is typed, gives
    the code back. *)
Theorem room_code_shape (ds : list nat) :
  Forall (fun d => (d < 36)%nat) ds →
  (String.length (generateRoomCode ds) ≤ 5)%nat ∧
  (String.length (generateRoomCode ds) = 5%nat ↔ (5 ≤ length ds)%nat) ∧
  allChars isUpperAlnum (generateRoomCode ds) = true ∧
  toUpperCase (generateRoomCode ds) = generateRoomCode ds.
Proof.
  intros Hds. rewrite generateRoomCode_length.
  split; [lia|]. split; [lia|]. split; [by apply generateRoomCode_alphabet|].
  rewrite generateRoomCode_digits.
  generalize (digits36 (take 5 ds)). intros s.
  induction s as [|a s IH]; cbn; [done|]. rewrite IH. f_equal.
  assert (H := upperAscii_not_lower a). unfold upperAscii at 1.
  unfold isLower in H. by rewrite H.
Qed.

Lemma room_code_shape_witness :
  String.length (generateRoomCode draw) = 5%nat ∧
  toUpperCase (generateRoomCode draw) = generateRoomCode draw.
Proof.
  destruct (room_code_shape draw) as (_ & Hlen & _ & Hupper).
  - unfold draw. repeat (constructor; [cbn; lia|]). constructor.
  - split; [|exact Hupper]. apply Hlen. vm_compute. lia.
Defined.

Lemma fold_handleChange (edits : list (JoinQuizPage.field * string))
    (d : JoinQuizPage.data) (typed : string) :
  JoinQuizPage.roomCode d = toUpperCase typed →
  let d' := fold_left (fun d e => JoinQuizPage.handleChange d (fst e) (snd e)) edits d in
  JoinQuizPage.roomCode d' = toUpperCase (lastTyped JoinQuizPage.FRoomCode edits typed) ∧
  JoinQuizPage.playerName d'
  = lastTyped JoinQuizPage.FPlayerName edits (JoinQuizPage.playerName d).
Proof.
  revert d typed. induction edits as [|[[] v] edits IH]; intros [code nm] typed Hd; cbn in *;
    [done|..]; by apply IH.
Qed.

Lemma isSpace_upperAscii (a : ascii) : isSpace (upperAscii a) = isSpace a.
Proof. by destruct a as [[] [] [] [] [] [] [] []]. Qed.

Lemma blank_toUpperCase (s : string) : blank (toUpperCase s) = blank s.
Proof.
  unfold blank. induction s as [|a s IH]; [done|].
  cbn [toUpperCase allChars]. by rewrite isSpace_upperAscii, IH.
Qed.

(** X20. Whatever ASCII text is typed into the join form, in whatever
    order: the form holds the upper-cased last value typed into the code
    input and the last value typed into the name input, untouched; its
    code never holds a lower-case letter; and it submits nothing exactly
    when the last code typed or the last name typed is blank. *)
Theorem join_form_holds_last_typed (edits : list (JoinQuizPage.field * string)) :
  Forall (fun e => allChars isAscii (snd e) = true) edits →
  let d := JoinQuizPage.edited edits in
  JoinQuizPage.roomCode d = toUpperCase (lastTyped JoinQuizPage.FRoomCode edits "") ∧
  JoinQuizPage.playerName d = lastTyped JoinQuizPage.FPlayerName edits "" ∧
  allChars (fun a => negb (isLower a)) (JoinQuizPage.roomCode d) = true ∧
  (JoinQuizPage.handleSubmit d = None ↔
   blank (lastTyped JoinQuizPage.FRoomCode edits "") = true ∨
   blank (lastTyped JoinQuizPage.FPlayerName edits "") = true).
Proof.
  intros _. cbn zeta.
  destruct (fold_handleChange edits JoinQuizPage.initialData "" eq_refl) as [Hcode Hname].
  fold (JoinQuizPage.edited edits) in Hcode, Hname.
  change (JoinQuizPage.playerName JoinQuizPage.initialData) with "" in Hname.
  split; [exact Hcode|]. split; [exact Hname|].
  split; [rewrite Hcode; apply toUpperCase_no_lower|].
  unfold JoinQuizPage.handleSubmit. rewrite Hcode, Hname, blank_toUpperCase.
  destruct (blank (lastTyped JoinQuizPage.FRoomCode edits "")),
           (blank (lastTyped JoinQuizPage.FPlayerName edits "")); cbn;
    intuition congruence.
Qed.

Lemma join_form_holds_last_typed_witness :
  JoinQuizPage.roomCode (JoinQuizPage.edited boTypes) = "AB12Z" ∧
  JoinQuizPage.playerName (JoinQuizPage.edited boTypes) = "Bo".
Proof.
  destruct (join_form_holds_last_typed boTypes) as (Hcode & Hname & _).
  - unfold boTypes. repeat (constructor; [reflexivity|]). constructor.
  - split; [rewrite Hcode | rewrite Hname]; reflexivity.
Defined.

Lemma blank_upperAlnum (s : string) :
  s ≠ "" → allChars isUpperAlnum s = true → blank s = false.
Proof.
  destruct s as [|a s]; [done|]. intros _. cbn. intros H.
  apply andb_true_iff in H as [Ha _]. apply andb_false_iff. left.
  unfold isUpperAlnum, isSpace in *.
  destruct (nat_of_ascii a) as [|n]; [done|].
  do 33 (destruct n as [|n]; [done|]). cbn. done.
Qed.

(** X21. A room is found under the code it was created with.  After a
    creation from a non-empty draw of base-36 digits, a guest who types
    the code in any mix of cases, and an ASCII name that is not blank,
    submits the join form and joins: the guest's client shows the lobby
    of that room, and the room, still in the lobby, holds both the host
    and the guest with score 0 and no answers. *)
Theorem created_room_is_found_by_typed_code (host guest : App) (ds : list nat)
    (q : Question) (items : list Question) (now : Z) (settings : Settings.t)
    (w : World) (typed nm : string) :
  Forall (fun d => (d < 36)%nat) ds →
  ds ≠ [] →
  allChars isAscii typed = true →
  toUpperCase typed = generateRoomCode ds →
  allChars isAscii nm = true →
  blank nm = false →
  userId guest ≠ userId host →
  let w1 := fst (handleCreateQuiz host ds (JsonArray (q :: items)) now settings w) in
  let form := JoinQuizPage.edited [(JoinQuizPage.FRoomCode, typed);
                                   (JoinQuizPage.FPlayerName, nm)] in
  ∃ data,
    JoinQuizPage.handleSubmit form = Some data ∧
    let w2 := fst (handleJoinQuiz guest data (seenFrom guest w1)) in
    page (client w2) = PLobby ∧
    roomCode (client w2) = generateRoomCode ds ∧
    storedPlayer (generateRoomCode ds) (userId guest) (store w2)
      = Some (freshPlayer (userId guest) nm) ∧
    storedPlayer (generateRoomCode ds) (userId host) (store w2)
      = Some (freshPlayer (userId host) (Settings.hostName settings)) ∧
    statusOf (generateRoomCode ds) (store w2) = Some Lobby.
Proof.
  intros Hds Hne _ Htyped _ Hnm Hguest. cbn zeta.
  assert (Hcode : blank (generateRoomCode ds) = false).
  { apply blank_upperAlnum; [|by apply generateRoomCode_alphabet].
    intros Hempty. apply (f_equal String.length) in Hempty.
    rewrite generateRoomCode_length in Hempty. destruct ds; [done|]. cbn in Hempty. lia. }
  exists {| JoinQuizPage.roomCode := generateRoomCode ds; JoinQuizPage.playerName := nm |}.
  split.
  { change (JoinQuizPage.edited [(JoinQuizPage.FRoomCode, typed); (JoinQuizPage.FPlayerName, nm)])
      with {| JoinQuizPage.roomCode := toUpperCase typed; JoinQuizPage.playerName := nm |}.
    unfold JoinQuizPage.handleSubmit.
    cbn [JoinQuizPage.roomCode JoinQuizPage.playerName].
    rewrite Htyped, Hcode, Hnm. done. }
  rewrite handleCreateQuiz_cases.
  set (data := {| JoinQuizPage.roomCode := generateRoomCode ds; JoinQuizPage.playerName := nm |}).
  set (w1 := created host ds (q :: items) now settings w).
  destruct (handleJoinQuiz_cases guest data (seenFrom guest w1)) as [_ Hjoin].
  assert (Hlook : store (seenFrom guest w1) !! JoinQuizPage.roomCode data
                  = store w1 !! generateRoomCode ds) by done.
  unfold w1 at 2 in Hlook. unfold created in Hlook. cbn [store] in Hlook.
  rewrite lookup_insert_eq in Hlook.
  rewrite Hlook in Hjoin. cbn [status] in Hjoin. rewrite decide_True in Hjoin by done.
  destruct Hjoin as (Hstore & _ & Hpage & Hcode').
  cbn [fst] in *. split; [exact Hpage|]. split; [exact Hcode'|].
  unfold storedPlayer, statusOf. rewrite Hstore. cbn [JoinQuizPage.roomCode data].
  rewrite lookup_insert_eq. cbn.
  rewrite lookup_insert_eq, lookup_insert_ne, lookup_singleton_eq by done. done.
Qed.

Lemma created_room_is_found_by_typed_code_witness :
  ∃ data,
    JoinQuizPage.handleSubmit
      (JoinQuizPage.edited [(JoinQuizPage.FRoomCode, "ab12z"); (JoinQuizPage.FPlayerName, "Bo")])
    = Some data ∧
    page (client (fst (handleJoinQuiz bo data (seenFrom bo adaCreated)))) = PLobby.
Proof.
  destruct (created_room_is_found_by_typed_code ada bo draw tides [deepest] 0 oceans
              (emptyWorld ada) "ab12z" "Bo") as (data & Hsubmit & Hpage & _).
  - unfold draw. repeat (constructor; [cbn; lia|]). constructor.
  - discriminate.
  - reflexivity.
  - vm_compute. reflexivity.
  - reflexivity.
  - reflexivity.
  - discriminate.
  - exists data. split; [exact Hsubmit | exact Hpage].
Defined.

(** ** The page, the selection and the countdown, event by event *)

Lemma handle_lookup (h : App → M unit) (i : nat) (s : Session) (q : option QuizPage.state)
    (sys : System) :
  sessions sys !! i = Some s →
  sessions (handle h i s q sys) !! i
  = Some (rendered (client (fst (h (app s) {| client := app s; store := docs sys |}))) q).
Proof. intros Hs. unfold handle. cbn. apply list_lookup_insert_eq. by eapply lookup_lt_Some. Qed.

Lemma enabled_Create (ds : list nat) (response : Generated) (now : Z)
    (form : CreateQuizPage.settings) (s : Session) :
  enabled (Create ds response now form) s = true →
  is_Some (CreateQuizPage.handleSubmit (userName (app s)) form).
Proof.
  unfold enabled. intros H. apply andb_true_iff in H as [_ H].
  apply andb_true_iff in H as [_ H]. by apply bool_decide_eq_true in H.
Qed.

Lemma enabled_Join (edits : list (JoinQuizPage.field * string)) (s : Session) :
  enabled (Join edits) s = true →
  is_Some (JoinQuizPage.handleSubmit (JoinQuizPage.edited edits)).
Proof.
  unfold enabled. intros H. apply andb_true_iff in H as [_ H].
  apply andb_true_iff in H as [_ H]. by apply bool_decide_eq_true in H.
Qed.

Lemma enabled_Tick (s : Session) :
  enabled Tick s = true → ∃ q0, quizPage s = Some q0 ∧ QuizPage.interval q0 = true.
Proof.
  unfold enabled. intros H. apply andb_true_iff in H as [_ H].
  destruct (quizPage s) as [q0|]; [eauto | done].
Qed.

Lemma enabled_Navigate (p : Page) (s : Session) :
  enabled (Navigate p) s = true → p ≠ PQuiz.
Proof.
  unfold enabled. intros H. apply andb_true_iff in H as [_ H].
  apply andb_true_iff in H as [_ H]. apply bool_decide_eq_true in H.
  by destruct H as [-> | ->].
Qed.

(** *** Who opens the quiz page *)

Lemma offQuiz_refl (w : World) : offQuiz w w.
Proof. by intros ?. Qed.

Lemma offQuiz_trans (w1 w2 w3 : World) : offQuiz w1 w2 → offQuiz w2 w3 → offQuiz w1 w3.
Proof. unfold offQuiz. auto. Qed.

Ltac offQuiz :=
  respects_by offQuiz_refl offQuiz_trans
    ltac:(first [ apply respects_updApp; intros ?; unfold offQuiz; cbn; done
                | apply respects_updateDoc; [apply offQuiz_refl | intros ? ? ?; by intros ?]
                | apply respects_setDoc; intros ?; by intros ? ]).

Lemma offQuiz_handleCreateQuiz (c : App) (ds : list nat) (response : Generated) (now : Z)
    (settings : Settings.t) :
  respects offQuiz (handleCreateQuiz c ds response now settings).
Proof. unfold handleCreateQuiz, generateAIQuestions. offQuiz. Qed.

Lemma offQuiz_handleJoinQuiz (c : App) (data : JoinQuizPage.data) :
  respects offQuiz (handleJoinQuiz c data).
Proof. unfold handleJoinQuiz. offQuiz. Qed.

Lemma offQuiz_handleStartQuiz (c : App) : respects offQuiz (handleStartQuiz c).
Proof. unfold handleStartQuiz. offQuiz. Qed.

Lemma offQuiz_handleAnswerSubmit (c : App) (answer : string) :
  respects offQuiz (handleAnswerSubmit c answer).
Proof. unfold handleAnswerSubmit, submitWrite, submitResume. offQuiz. Qed.

Lemma offQuiz_handleReturnHome : respects offQuiz handleReturnHome.
Proof. unfold handleReturnHome. offQuiz. Qed.

(** *** Who changes the selection *)

Lemma sameSelection_refl (w : World) : sameSelection w w.
Proof. done. Qed.

Lemma sameSelection_trans (w1 w2 w3 : World) :
  sameSelection w1 w2 → sameSelection w2 w3 → sameSelection w1 w3.
Proof. unfold sameSelection. congruence. Qed.

Ltac sameSelection :=
  respects_by sameSelection_refl sameSelection_trans
    ltac:(first [ apply respects_updApp; intros ?; unfold sameSelection; cbn; done
                | apply respects_updateDoc; [apply sameSelection_refl | intros ? ? ?; done]
                | apply respects_setDoc; intros ?; done ]).

Lemma sameSelection_handleCreateQuiz (c : App) (ds : list nat) (response : Generated) (now : Z)
    (settings : Settings.t) :
  respects sameSelection (handleCreateQuiz c ds response now settings).
Proof. unfold handleCreateQuiz, generateAIQuestions. sameSelection. Qed.

Lemma sameSelection_handleJoinQuiz (c : App) (data : JoinQuizPage.data) :
  respects sameSelection (handleJoinQuiz c data).
Proof. unfold handleJoinQuiz. sameSelection. Qed.

Lemma sameSelection_handleStartQuiz (c : App) : respects sameSelection (handleStartQuiz c).
Proof. unfold handleStartQuiz. sameSelection. Qed.

Lemma sameSelection_onSnapshot (c : App) (docSnap : option Room) :
  respects sameSelection (onSnapshot c docSnap).
Proof. unfold onSnapshot. sameSelection. Qed.

Lemma sameSelection_handleReturnHome : respects sameSelection handleReturnHome.
Proof. unfold handleReturnHome. sameSelection. Qed.

Lemma handleAnswerSubmit_selection (c : App) (answer : string) (w : World) :
  let c' := client (fst (handleAnswerSubmit c answer w)) in
  selectedAnswer c' = selectedAnswer (client w) ∨
  selectedAnswer c' = None ∧ currentQuestionIndex c' = S (currentQuestionIndex (client w)).
Proof.
  cbn zeta. unfold handleAnswerSubmit, submitWrite, submitResume.
  destruct (quizData c) as [qd|]; [|by left].
  destruct (questions qd !! currentQuestionIndex c) as [q|]; [|by left].
  run_handler. destruct (store w !! roomCode c) as [room|]; [|by left]. cbn.
  destruct (Z.of_nat (currentQuestionIndex c) <? Z.of_nat (length (questions qd)) - 1);
    cbn; [by right|].
  rewrite lookup_insert_eq. by left.
Qed.

(** X22. The quiz page is opened by a snapshot and by nothing else, and
    always at the start: when an event takes a client from another page
    to the quiz page, the event is the delivery of a snapshot of a stored
    room that is in progress, and after it the client holds that room,
    is at question 0 with no answers and is not finished.  The selection
    is not part of that reset: it is what it was before. *)
Theorem quiz_page_is_entered_afresh (i : nat) (e : Event) (sys sys' : System)
    (s s' : Session) :
  step i e sys = Some sys' →
  sessions sys !! i = Some s →
  sessions sys' !! i = Some s' →
  page (app s) ≠ PQuiz →
  page (app s') = PQuiz →
  e = Snapshot ∧
  (∃ d, docs sys !! roomCode (app s) = Some d ∧ status d = InProgress ∧
        quizData (app s') = Some d) ∧
  currentQuestionIndex (app s') = 0%nat ∧
  userAnswers (app s') = [] ∧
  quizFinished (app s') = false ∧
  selectedAnswer (app s') = selectedAnswer (app s).
Proof.
  intros Hstep Hs Hs' Hoff Hon. unfold step in Hstep. rewrite Hs in Hstep. cbn in Hstep.
  destruct (enabled e s) eqn:Hen; [|done]. injection Hstep as <-.
  assert (Hsame : sessions sys !! i = Some s' → False).
  { rewrite Hs. intros [= <-]. done. }
  assert (Hh : ∀ h q, respects offQuiz (h (app s)) →
                 sessions (handle h i s q sys) !! i = Some s' → False).
  { intros h q Hresp H. rewrite (handle_lookup _ _ _ _ _ Hs) in H. injection H as <-.
    apply Hoff. by apply (Hresp {| client := app s; store := docs sys |}). }
  destruct e as [p|v|ds response now form|edits| | |o| | |].
  - exfalso. eapply Hh; [|exact Hs']; cbv beta. apply enabled_Navigate in Hen.
    unfold setPage. apply respects_updApp. intros w. unfold offQuiz. cbn. done.
  - exfalso. eapply Hh; [|exact Hs']; cbv beta. offQuiz.
  - exfalso. destruct (CreateQuizPage.handleSubmit (userName (app s)) form); [|by apply Hsame].
    eapply Hh; [|exact Hs']; cbv beta. apply offQuiz_handleCreateQuiz.
  - exfalso. destruct (JoinQuizPage.handleSubmit (JoinQuizPage.edited edits)); [|by apply Hsame].
    eapply Hh; [|exact Hs']; cbv beta. apply offQuiz_handleJoinQuiz.
  - exfalso. eapply Hh; [|exact Hs']; cbv beta. apply offQuiz_handleStartQuiz.
  - split; [done|]. rewrite (handle_lookup _ _ _ _ _ Hs) in Hs'. injection Hs' as <-.
    cbn [app rendered] in *. unfold onSnapshot in *.
    destruct (docs sys !! roomCode (app s)) as [d|] eqn:Hd; run_handler; [|done].
    destruct (decide (status d = InProgress ∧ page (app s) ≠ PQuiz)) as [[Hst _]|Hno].
    + cbn in *.
      rewrite (decide_False (P := status d = Finished ∧ _)) in * by (rewrite Hst; intros [? _]; done).
      cbn in *. split; [by exists d|]. done.
    + cbn in *. destruct (decide (status d = Finished ∧ quizFinished (app s) = false));
        cbn in *; done.
  - exfalso. destruct (decide (selectedAnswer (app s) = Some o)); [by apply Hsame|].
    eapply Hh; [|exact Hs']; cbv beta. offQuiz.
  - exfalso. eapply Hh; [|exact Hs']; cbv beta. unfold QuizPage.handleButtonClick.
    destruct (selectedAnswer (app s));
      [apply offQuiz_handleAnswerSubmit | apply (respects_ret _ offQuiz_refl)].
  - exfalso. destruct (quizPage s) as [q0|]; [|by apply Hsame].
    destruct (QuizPage.tick q0) as [q [|]].
    + eapply Hh; [|exact Hs']; cbv beta. apply offQuiz_handleAnswerSubmit.
    + cbn in Hs'. rewrite list_lookup_insert_eq in Hs' by (by eapply lookup_lt_Some).
      injection Hs' as <-. done.
  - exfalso. eapply Hh; [|exact Hs']; cbv beta. apply offQuiz_handleReturnHome.
Qed.

Lemma quiz_page_is_entered_afresh_witness :
  currentQuestionIndex (app (boIn quizShown)) = 0%nat ∧
  userAnswers (app (boIn quizShown)) = [].
Proof.
  destruct (quiz_page_is_entered_afresh 1 Snapshot (systemAfter (take 7 countdownEvents))
              quizShown (boIn (systemAfter (take 7 countdownEvents))) (boIn quizShown))
    as (_ & _ & Hindex & Hanswers & _).
  - vm_compute. reflexivity.
  - vm_compute. reflexivity.
  - vm_compute. reflexivity.
  - vm_compute. discriminate.
  - vm_compute. reflexivity.
  - split; [exact Hindex | exact Hanswers].
Defined.

(** X23. The selection changes in two ways only: a click on an option
    sets it to that option, and a submission, by the button or by the
    countdown, that moves on to the next question clears it.  Every other
    event keeps it; so the submission of the last question, the snapshot
    that opens a quiz and the return to the home page do not clear it. *)
Theorem selection_is_cleared_only_between_questions (i : nat) (e : Event)
    (sys sys' : System) (s s' : Session) :
  step i e sys = Some sys' →
  sessions sys !! i = Some s →
  sessions sys' !! i = Some s' →
  selectedAnswer (app s') = selectedAnswer (app s) ∨
  (∃ o, e = Select o ∧ selectedAnswer (app s') = Some o) ∨
  ((e = Submit ∨ e = Tick) ∧
   selectedAnswer (app s') = None ∧
   currentQuestionIndex (app s') = S (currentQuestionIndex (app s))).
Proof.
  intros Hstep Hs Hs'. unfold step in Hstep. rewrite Hs in Hstep. cbn in Hstep.
  destruct (enabled e s) eqn:Hen; [|done]. injection Hstep as <-.
  assert (Hsame : sessions sys !! i = Some s' →
                  selectedAnswer (app s') = selectedAnswer (app s)).
  { rewrite Hs. by intros [= <-]. }
  assert (Hh : ∀ h q, respects sameSelection (h (app s)) →
                 sessions (handle h i s q sys) !! i = Some s' →
                 selectedAnswer (app s') = selectedAnswer (app s)).
  { intros h q Hresp H. rewrite (handle_lookup _ _ _ _ _ Hs) in H. injection H as <-.
    apply (Hresp {| client := app s; store := docs sys |}). }
  assert (Hsubmit : ∀ a q,
            sessions (handle (fun c => handleAnswerSubmit c a) i s q sys) !! i = Some s' →
            selectedAnswer (app s') = selectedAnswer (app s) ∨
            selectedAnswer (app s') = None ∧
            currentQuestionIndex (app s') = S (currentQuestionIndex (app s))).
  { intros a q H. rewrite (handle_lookup _ _ _ _ _ Hs) in H. injection H as <-.
    apply (handleAnswerSubmit_selection (app s) a {| client := app s; store := docs sys |}). }
  destruct e as [p|v|ds response now form|edits| | |o| | |].
  - left. eapply Hh; [|exact Hs']; cbv beta. sameSelection.
  - left. eapply Hh; [|exact Hs']; cbv beta. sameSelection.
  - left. destruct (CreateQuizPage.handleSubmit (userName (app s)) form); [|by apply Hsame].
    eapply Hh; [|exact Hs']; cbv beta. apply sameSelection_handleCreateQuiz.
  - left. destruct (JoinQuizPage.handleSubmit (JoinQuizPage.edited edits)); [|by apply Hsame].
    eapply Hh; [|exact Hs']; cbv beta. apply sameSelection_handleJoinQuiz.
  - left. eapply Hh; [|exact Hs']; cbv beta. apply sameSelection_handleStartQuiz.
  - left. eapply Hh; [|exact Hs']; cbv beta. apply sameSelection_onSnapshot.
  - destruct (decide (selectedAnswer (app s) = Some o)); [left; by apply Hsame|].
    right. left. exists o. split; [done|].
    rewrite (handle_lookup _ _ _ _ _ Hs) in Hs'. by injection Hs' as <-.
  - rewrite (handle_lookup _ _ _ _ _ Hs) in Hs'. injection Hs' as <-. cbn [app rendered].
    unfold QuizPage.handleButtonClick.
    destruct (selectedAnswer (app s)) as [a|] eqn:Ha; [|by left].
    destruct (handleAnswerSubmit_selection (app s) a {| client := app s; store := docs sys |})
      as [H|H]; cbn [client] in H.
    + left. by rewrite H.
    + right. right. by split; [left|].
  - destruct (quizPage s) as [q0|]; [|left; by apply Hsame].
    destruct (QuizPage.tick q0) as [q [|]].
    + destruct (Hsubmit _ _ Hs') as [H|H]; [by left | right; right; by split; [right|]].
    + left. cbn in Hs'. rewrite list_lookup_insert_eq in Hs' by (by eapply lookup_lt_Some).
      by injection Hs' as <-.
  - left. eapply Hh; [|exact Hs']; cbv beta. apply sameSelection_handleReturnHome.
Qed.

Lemma selection_is_cleared_only_between_questions_witness :
  selectedAnswer (app (boIn boSubmitted)) = selectedAnswer (app (boIn boSelected)) ∨
  (∃ o, Submit = Select o ∧ selectedAnswer (app (boIn boSubmitted)) = Some o) ∨
  ((Submit = Submit ∨ Submit = Tick) ∧
   selectedAnswer (app (boIn boSubmitted)) = None ∧
   currentQuestionIndex (app (boIn boSubmitted))
   = S (currentQuestionIndex (app (boIn boSelected)))).
Proof.
  apply (selection_is_cleared_only_between_questions 1 Submit boSelected boSubmitted
           (boIn boSelected) (boIn boSubmitted)).
  - vm_compute. reflexivity.
  - vm_compute. reflexivity.
  - vm_compute. reflexivity.
Defined.

(** *** Renders and the countdown *)

Lemma rendered_countdown (c : App) (q : option QuizPage.state) (d : Room) :
  isLoading c = false → page c = PQuiz → quizData c = Some d →
  is_Some (QuizPage.currentQuestion c) →
  quizPage (rendered c q)
  = Some {| QuizPage.timeLeft := timer d; QuizPage.interval := true |}.
Proof.
  intros Hl Hp Hd [qn Hq]. unfold rendered. cbn. rewrite decide_True by done.
  unfold QuizPage.effect. by rewrite Hd, Hq.
Qed.

(** X24. Every render of [App] restarts the countdown.  The handler that
    [QuizPage] submits with is a new function at each render of [App], so
    the effect that sets the interval runs again.  Hence after any event
    that [App] handles, a client that shows a question has the full time
    of the room again and a running interval: after a click on another
    option, after a snapshot, after a submission.  The only events that
    do not restart it are a click on the option already selected and a
    firing of the interval before the last second. *)
Theorem every_render_restarts_the_countdown (i : nat) (e : Event) (sys sys' : System)
    (s s' : Session) (d : Room) :
  step i e sys = Some sys' →
  sessions sys !! i = Some s →
  sessions sys' !! i = Some s' →
  (∀ o, e = Select o → selectedAnswer (app s) ≠ Some o) →
  (e = Tick → ∀ q0, quizPage s = Some q0 → QuizPage.timeLeft q0 ≤ 1) →
  isLoading (app s') = false →
  page (app s') = PQuiz →
  quizData (app s') = Some d →
  is_Some (QuizPage.currentQuestion (app s')) →
  quizPage s' = Some {| QuizPage.timeLeft := timer d; QuizPage.interval := true |}.
Proof.
  intros Hstep Hs Hs' Hsel Htick Hl Hp Hd Hq.
  unfold step in Hstep. rewrite Hs in Hstep. cbn in Hstep.
  destruct (enabled e s) eqn:Hen; [|done]. injection Hstep as <-.
  assert (Hh : ∀ h q, sessions (handle h i s q sys) !! i = Some s' →
                 quizPage s' = Some {| QuizPage.timeLeft := timer d;
                                       QuizPage.interval := true |}).
  { intros h q H. rewrite (handle_lookup _ _ _ _ _ Hs) in H. injection H as <-.
    by apply rendered_countdown. }
  destruct e as [p|v|ds response now form|edits| | |o| | |]; try (by eapply Hh).
  - destruct (enabled_Create _ _ _ _ _ Hen) as [settings Hsettings].
    rewrite Hsettings in Hs'. by eapply Hh.
  - destruct (enabled_Join _ _ Hen) as [data Hdata]. rewrite Hdata in Hs'. by eapply Hh.
  - destruct (decide (selectedAnswer (app s) = Some o)); [|by eapply Hh].
    by destruct (Hsel o eq_refl).
  - destruct (enabled_Tick _ Hen) as (q0 & Hq0 & Hint). rewrite Hq0 in Hs'.
    specialize (Htick eq_refl q0 Hq0). unfold QuizPage.tick in Hs'. rewrite Hint in Hs'.
    rewrite (proj2 (Z.leb_le _ _) Htick) in Hs'. by eapply Hh.
Qed.

Lemma every_render_restarts_the_countdown_witness :
  quizPage (boIn (systemAfter (countdownEvents ++ [(1%nat, Select "The wind")])))
  = Some {| QuizPage.timeLeft := 30; QuizPage.interval := true |}.
Proof.
  apply (every_render_restarts_the_countdown 1 (Select "The wind") atLastSecond
           (systemAfter (countdownEvents ++ [(1%nat, Select "The wind")]))
           (boIn atLastSecond)
           (boIn (systemAfter (countdownEvents ++ [(1%nat, Select "The wind")])))
           twoOnQuiz).
  - vm_compute. reflexivity.
  - vm_compute. reflexivity.
  - vm_compute. reflexivity.
  - intros o _. vm_compute. discriminate.
  - intros [=].
  - vm_compute. reflexivity.
  - vm_compute. reflexivity.
  - vm_compute. reflexivity.
  - vm_compute. eexists. reflexivity.
Defined.

